(** * featuretools: English descriptions of features

    A shallow embedding of
    [featuretools/feature_base/feature_description_runon.py]
    ([describe_feature], [generate_description], [get_direct_description],
    [get_aggregation_groupby], [parse_json_metadata]) and the properties of
    its specification.

    Conventions.
    - Python [str] values are [string]s of ASCII characters; [str.upper] and
      [str.lower] act on the letters a-z / A-Z and leave every other
      character alone.
    - A Python [dict] is a [gmap]; a key is either an object (compared by the
      object's own hash/equality, abstracted as a number) or a string.
    - A raised exception is the [Raise] outcome of the error monad [res];
      the module has no [try], so every exception propagates. *)

From Stdlib Require Import String Ascii ZArith Lia.
From stdpp Require Import base option list strings gmap.


(** ** Python strings *)

Module Str.

Definition is_lower (c : ascii) : bool :=
  (97 <=? nat_of_ascii c)%nat && (nat_of_ascii c <=? 122)%nat.

Definition is_upper (c : ascii) : bool :=
  (65 <=? nat_of_ascii c)%nat && (nat_of_ascii c <=? 90)%nat.

Definition upper_char (c : ascii) : ascii :=
  if is_lower c then ascii_of_nat (nat_of_ascii c - 32) else c.

Definition lower_char (c : ascii) : ascii :=
  if is_upper c then ascii_of_nat (nat_of_ascii c + 32) else c.

Fixpoint map (f : ascii -> ascii) (s : string) : string :=
  match s with
  | EmptyString => EmptyString
  | String c s' => String (f c) (map f s')
  end.

(** [s.upper()] and [s.lower()] *)
Definition upper : string -> string := map upper_char.
Definition lower : string -> string := map lower_char.

(** [s[:k]] for a literal [k >= 0] *)
Fixpoint take (k : nat) (s : string) : string :=
  match k, s with
  | S k', String c s' => String c (take k' s')
  | _, _ => EmptyString
  end.

(** [s[k:]] for a literal [k >= 0] *)
Fixpoint drop (k : nat) (s : string) : string :=
  match k, s with
  | S k', String _ s' => drop k' s'
  | _, _ => s
  end.

(** [s.startswith(p)] *)
Definition startswith (s p : string) : bool := String.prefix p s.

(** [sep.join(parts)] *)
Definition join (sep : string) (parts : list string) : string :=
  String.concat sep parts.

(** first and last character, when there is one *)
Definition first (s : string) : option ascii :=
  match s with
  | EmptyString => None
  | String c _ => Some c
  end.

Fixpoint last (s : string) : option ascii :=
  match s with
  | EmptyString => None
  | String c EmptyString => Some c
  | String _ s' => last s'
  end.

End Str.

(** ** Python values, exceptions and the error monad *)

(** What a description variable can hold: [None] or a [str]. *)
Inductive pyval :=
  | VNone
  | VStr (s : string).

(** [bool(v)] *)
Definition truthy (v : pyval) : bool :=
  match v with
  | VNone => false
  | VStr s => negb (String.eqb s "")
  end.

(** [a or b] *)
Definition py_or (a b : pyval) : pyval := if truthy a then a else b.

(** ['{}'.format(v)] *)
Definition format (v : pyval) : string :=
  match v with
  | VNone => "None"
  | VStr s => s
  end.

Inductive exn :=
  | TypeError
  | IndexError
  | KeyError
  | AttributeError
  | UnboundLocalError
  | RecursionError
  | OSError (errno : Z)
  | JSONDecodeError (msg : string)
  | Exception (msg : string).

Inductive res (A : Type) :=
  | Ok (a : A)
  | Raise (e : exn).
Arguments Ok {A} a.
Arguments Raise {A} e.

#[global] Instance res_ret : MRet res := fun _ a => Ok a.
#[global] Instance res_bind : MBind res := fun _ _ k m =>
  match m with
  | Ok a => k a
  | Raise e => Raise e
  end.

(** [for x in xs: out.append(f(x))], stopping at the first exception *)
Fixpoint for_each {A B} (f : A -> res B) (xs : list A) : res (list B) :=
  match xs with
  | [] => Ok []
  | x :: xs' =>
      y ← f x;
      ys ← for_each f xs';
      Ok (y :: ys)
  end.

(** [v + s] where [s] is a [str] *)
Definition py_add (v : pyval) (s : string) : res pyval :=
  match v with
  | VStr a => Ok (VStr (a +:+ s))
  | VNone => Raise TypeError
  end.

(** ** The feature-object model

    The feature classes, primitives, entities and relationships live in
    other files of the library. The renderer only reads the accessors that
    section 6 of the specification lists; each of them is a field here. *)

(** Keys of the override mappings: an object (the number stands for the
    object as the mapping hashes and compares it), or a name. *)
Definition key : Type := positive + string.
Definition by_object (i : positive) : key := inl i.
Definition by_name (s : string) : key := inr s.

(** Modelled from the spec: the values of [primitive_templates], which the
    source file only passes on to the primitive - a template string, or a
    list of them for a primitive with several outputs. *)
Inductive template :=
  | TStr (s : string)
  | TList (l : list string).

Definition template_truthy (t : option template) : bool :=
  match t with
  | None => false
  | Some (TStr s) => negb (String.eqb s "")
  | Some (TList l) => negb (bool_decide (l = []))
  end.

(** [a or b] on optional templates ([None] is Python's [None]) *)
Definition template_or (a b : option template) : option template :=
  if template_truthy a then a else b.

Module Var.
(** Modelled from the spec: a column of an entity (class [Variable], not in
    the source file), what [entity[column]] returns. *)
Record t := mk {
  id : string;
  name : string;
  entity_id : string
}.
End Var.

Module Entity.
(** Modelled from the spec: an entity (not in the source file) with the
    accessors [id], [index] and [entity[column]]. *)
Record t := mk {
  id : string;
  (** the id of the index column *)
  index : string;
  variables : list Var.t
}.

(** [entity[variable_id]] *)
Definition getitem (e : t) (variable_id : string) : res Var.t :=
  match List.find (fun v => String.eqb (Var.id v) variable_id) (variables e) with
  | Some v => Ok v
  | None => Raise KeyError
  end.
End Entity.

Module Relationship.
(** Modelled from the spec: a relationship-path entry (not in the source
    file), with its parent and child entity. *)
Record t := mk {
  parent_entity : Entity.t;
  child_entity : Entity.t
}.
End Relationship.

Module Timedelta.
(** Modelled from the spec: the use-previous window descriptor (not in the
    source file); [get_name()] is its unit name, such as ["3 Days"]. *)
Record t := mk {
  get_name : string
}.
End Timedelta.

Module Primitive.
(** Modelled from the spec: a primitive (not in the source file) with the
    accessors [name] and [value] and its own description renderer, which
    is handed the input phrases, the slice index and the override template
    and may raise. *)
Record t := mk {
  (** the primitive object as a mapping key *)
  obj : positive;
  name : string;
  (** [primitive.value] as [format] prints it; [None] when the primitive
      has no such attribute (only scalar comparisons carry one) *)
  value : option pyval;
  (** [get_description(input_descriptions, slice_num, template_override)] *)
  get_description : list pyval -> option Z -> option template -> res string
}.
End Primitive.

(** Modelled from the spec: the classes of feature objects (not in the
    source file) that the [isinstance] tests tell apart. *)
Inductive FeatureClass :=
  | IdentityFeature
  | DirectFeature
  | AggregationFeature
  | TransformFeature
  | GroupByTransformFeature
  | FeatureOutputSlice.

#[global] Instance FeatureClass_eq_dec : EqDecision FeatureClass.
Proof. solve_decision. Defined.

#[local] Set Warnings "-register-all".

(** Modelled from the spec: a feature object (class [FeatureBase] and its
    subclasses, not in the source file) with the accessors the renderer
    reads. A feature is a finite tree: its base features, its where clause
    and the feature a sliced output wraps are features again. *)
Inductive Feature := mkFeature {
  class : FeatureClass;
  (** the feature object as a mapping key *)
  obj : positive;
  unique_name : string;
  get_name : string;
  entity_id : string;
  entity : Entity.t;
  base_features : list Feature;
  primitive : Primitive.t;
  (** each hop is a pair [(is_forward, relationship)] *)
  relationship_path : list (bool * Relationship.t);
  (** [where] and [use_previous]: attributes of aggregation features *)
  where_ : option Feature;
  use_previous : option Timedelta.t;
  (** [base_feature] and [n]: attributes of sliced outputs *)
  base_feature : option Feature;
  n : Z
}.

(** Modelled from the spec: [ft.IdentityFeature(variable)], the constructor
    of identity features (not in the source file). It is a parameter: it
    fixes the key and the unique name under which the feature it builds is
    looked up. *)
Class FeatureModel := new_IdentityFeature : Var.t -> Feature.

Definition isinstance (feature : Feature) (c : FeatureClass) : bool :=
  bool_decide (class feature = c).

(** [hasattr(feature, 'where')] *)
Definition has_where (feature : Feature) : bool :=
  isinstance feature AggregationFeature.

(** [xs[0]] *)
Definition first_item {A} (xs : list A) : res A :=
  match xs with
  | x :: _ => Ok x
  | [] => Raise IndexError
  end.

(** [xs[-1]] *)
Definition last_item {A} (xs : list A) : res A :=
  match last xs with
  | Some x => Ok x
  | None => Raise IndexError
  end.

(** [xs.pop()]: the last element and the list without it *)
Definition pop {A} (xs : list A) : res (A * list A) :=
  match last xs with
  | Some x => Ok (x, removelast xs)
  | None => Raise IndexError
  end.

(** The longest chain of sub-features below a feature. *)
Fixpoint height (feature : Feature) : nat :=
  match feature with
  | mkFeature _ _ _ _ _ _ bfs _ _ wh _ bf _ =>
      S (max (foldr max 0 (List.map height bfs))
             (max (from_option height 0 wh) (from_option height 0 bf)))
  end.

(** ** Mappings *)

(** [k in d] *)
Definition contains {V} (d : gmap key V) (k : key) : bool :=
  bool_decide (is_Some (d !! k)).

(** [d.get(k)] on a mapping of descriptions *)
Definition get (d : gmap key string) (k : key) : pyval :=
  match d !! k with
  | Some s => VStr s
  | None => VNone
  end.

(** ['"{}"'.format(s)] *)
Definition dquote : string := String "034"%char EmptyString.
Definition quoted (s : string) : string := dquote +:+ s +:+ dquote.

(** ** [get_direct_description] *)

(** [feature.relationship_path[-1][1]] *)
Definition last_relationship (feature : Feature) : res Relationship.t :=
  hop ← last_item (relationship_path feature);
  Ok hop.2.

(** The [while] loop: [cur] is the feature whose [base_features] the loop
    variable [base_features] currently holds. *)
Fixpoint direct_loop (cur : Feature) (direct_description : string)
  : res (Feature * string) :=
  match base_features cur with
  | [] => Raise IndexError
  | base_feat :: _ =>
      if isinstance base_feat DirectFeature then
        rel ← last_relationship base_feat;
        let base_feat_description :=
          " the instance of " +:+
          quoted (Entity.id (Relationship.parent_entity rel)) +:+
          " associated with" in
        direct_loop base_feat (base_feat_description +:+ direct_description)
      else
        Ok (base_feat, " of" +:+ direct_description)
  end.

Definition get_direct_description (feature : Feature) : res (Feature * string) :=
  rel ← last_relationship feature;
  let direct_description :=
    " the instance of " +:+
    quoted (Entity.id (Relationship.parent_entity rel)) +:+
    " associated with this instance of " +:+
    quoted (entity_id feature) in
  direct_loop feature direct_description.

(** ** [get_aggregation_groupby] *)

Definition get_aggregation_groupby `{FeatureModel}
    (feature : Feature) (feature_descriptions : gmap key string) : res string :=
  let groupby_name := Entity.index (entity feature) in
  variable ← Entity.getitem (entity feature) groupby_name;
  let groupby_feature := new_IdentityFeature variable in
  if contains feature_descriptions (by_object (obj groupby_feature))
     || contains feature_descriptions (by_name (unique_name groupby_feature))
  then
    match py_or (get feature_descriptions (by_object (obj groupby_feature)))
                (get feature_descriptions (by_name (unique_name groupby_feature)))
    with
    | VStr description =>
        if Str.startswith description "the "
        then Ok (Str.drop 4 description)
        else Ok description
    | VNone => Raise AttributeError   (* None has no startswith *)
    end
  else
    Ok (quoted groupby_name +:+ " in " +:+ quoted (Entity.id (entity feature))).

(** ** [generate_description] *)

(** [feature.base_feature] *)
Definition get_base_feature (feature : Feature) : res Feature :=
  match base_feature feature with
  | Some f => Ok f
  | None => Raise AttributeError
  end.

(** Lines 82-83: a sliced output stands for the feature it wraps. *)
Definition working_feature (feature : Feature) : res Feature :=
  if isinstance feature FeatureOutputSlice
  then get_base_feature feature else Ok feature.

Section generate_description.
Context `{FeatureModel}.
Variable feature_descriptions : gmap key string.
Variable primitive_templates : gmap key template.

(** One activation of the function; [rec] stands for the recursive call,
    which passes both mappings on unchanged. *)
Section activation.
Variable rec : Feature -> res pyval.

(** Lines 56-69: the input columns, their descriptions in order, and for a
    group-by transform the popped last description. The result is the pair
    [(groupby_description, input_descriptions)]; [groupby_description] is
    [None] while the local variable is unbound. *)
Definition input_descriptions_of (feature : Feature)
  : res (option pyval * list pyval) :=
  input_columns ←
    (if isinstance feature FeatureOutputSlice
     then f ← get_base_feature feature; Ok (base_features f)
     else Ok (base_features feature));
  input_descriptions ← for_each rec input_columns;
  if isinstance feature GroupByTransformFeature
  then '(last_description, rest) ← pop input_descriptions;
       Ok (Some last_description, rest)
  else Ok (None, input_descriptions).

(** Lines 71-81: the primitive's own fragment. *)
Definition primitive_description_of (feature : Feature)
    (input_descriptions : list pyval) : res string :=
  let slice_num :=
    if isinstance feature FeatureOutputSlice then Some (n feature) else None in
  let template_override :=
    if contains primitive_templates (by_object (Primitive.obj (primitive feature)))
       || contains primitive_templates (by_name (Primitive.name (primitive feature)))
    then template_or
           (primitive_templates !! by_object (Primitive.obj (primitive feature)))
           (primitive_templates !! by_name (Primitive.name (primitive feature)))
    else None in
  Primitive.get_description (primitive feature)
    input_descriptions slice_num template_override.

(** Lines 85-91: the group-by phrase. *)
Definition groupby_of (feature : Feature) (groupby_description : option pyval)
  : res string :=
  if isinstance feature AggregationFeature then
    groupby_name ← get_aggregation_groupby feature feature_descriptions;
    Ok ("for each " +:+ groupby_name)
  else if isinstance feature GroupByTransformFeature then
    match groupby_description with
    | Some d => Ok ("for each " +:+ format d)
    | None => Raise UnboundLocalError
    end
  else Ok "".

(** Lines 93-100: the aggregation entity phrase. *)
Definition entity_description_of (feature : Feature) : res string :=
  if isinstance feature AggregationFeature then
    let entity_description :=
      match use_previous feature with
      | Some window =>
          "of the previous " +:+ Str.lower (Timedelta.get_name window) +:+ " of "
      | None => "of all instances of "
      end in
    rel ← last_relationship feature;
    Ok (entity_description +:+ quoted (Entity.id (Relationship.child_entity rel)))
  else Ok "".

(** Lines 102-112: the where phrase. *)
Definition where_of (feature : Feature) : res string :=
  match (if has_where feature then where_ feature else None) with
  | Some w =>
      where_value ←
        match Primitive.value (primitive w) with
        | Some v => Ok v
        | None => Raise AttributeError
        end;
      where_col ←
        (if contains feature_descriptions (by_object (obj w))
            || contains feature_descriptions (by_name (unique_name w))
         then Ok (py_or (get feature_descriptions (by_object (obj w)))
                        (get feature_descriptions (by_name (unique_name w))))
         else b ← first_item (base_features w); rec b);
      Ok ("where " +:+ format where_col +:+ " is " +:+ format where_value)
  | None => Ok ""
  end.

(** Lines 114-116: join the non-empty parts. *)
Definition join_template (description_template : list string) : string :=
  Str.join " " (filter (fun phrase => phrase <> "") description_template).

Definition generate_description_body (feature : Feature) : res pyval :=
  (* 1) Check if has its own description *)
  if contains feature_descriptions (by_object (obj feature))
     || contains feature_descriptions (by_name (unique_name feature))
  then
    Ok (py_or (get feature_descriptions (by_object (obj feature)))
              (get feature_descriptions (by_name (unique_name feature))))
  (* 2) Check if identity feature *)
  else if isinstance feature IdentityFeature then
    Ok (VStr ("the " +:+ quoted (get_name feature)))
  (* 3) Deal with direct features *)
  else if isinstance feature DirectFeature then
    '(base, direct_description) ← get_direct_description feature;
    direct_base ← rec base;
    py_add direct_base direct_description
  else
    '(groupby_description, input_descriptions) ← input_descriptions_of feature;
    primitive_description ← primitive_description_of feature input_descriptions;
    feature ← working_feature feature;
    groupby ← groupby_of feature groupby_description;
    entity_description ← entity_description_of feature;
    where_phrase ← where_of feature;
    Ok (VStr (join_template
                [primitive_description; entity_description; where_phrase; groupby])).

End activation.

(** The recursion, bounded by the depth of the call stack. *)
Fixpoint generate_description_depth (depth : nat) (feature : Feature)
  : res pyval :=
  match depth with
  | O => Raise RecursionError
  | S d => generate_description_body (generate_description_depth d) feature
  end.

(** The feature tree is finite, so a stack of [height feature] frames is
    enough (see [generate_description_depth_enough]). *)
Definition generate_description (feature : Feature) : res pyval :=
  generate_description_depth (height feature) feature.

End generate_description.

(** ** [parse_json_metadata] and [describe_feature] *)

Module Json.
(** A decoded metadata document, in the file format of the specification:
    a JSON object whose entries [feature_descriptions] and
    [primitive_templates], when present, are objects from strings to
    descriptions and to templates; other entries are ignored. *)
Record t := mk {
  feature_descriptions : option (gmap string string);
  primitive_templates : option (gmap string template)
}.

(** A decoded JSON object as a [dict]: all its keys are strings. *)
Definition as_dict {V} (o : gmap string V) : gmap key V := kmap by_name o.
End Json.

(** Python's [open] and [json.load], as parameters: which paths can be
    opened, and what decoding an opened file gives or raises. A document
    that is not of the format above counts as one that fails to decode:
    the attribute error of line 155 propagates like a decoding error. *)
Class FileSystem := {
  file : Type;
  open_ : string -> res file;
  json_load : file -> res Json.t
}.

Section describe_feature.
Context `{FeatureModel} `{FileSystem}.

Definition parse_json_metadata (path : string)
  : res (gmap key string * gmap key template) :=
  f ← open_ path;
  json_metadata ← json_load f;
  Ok (default ∅ (Json.as_dict <$> Json.feature_descriptions json_metadata),
      default ∅ (Json.as_dict <$> Json.primitive_templates json_metadata)).

(** [if not d: d = {}] for an optional mapping argument *)
Definition or_empty {V} (d : option (gmap key V)) : gmap key V :=
  match d with
  | Some m => if bool_decide (m = ∅) then ∅ else m
  | None => ∅
  end.

(** [{**base, **over}] *)
Definition dict_merge {V} (base over : gmap key V) : gmap key V := over ∪ base.

(** Lines 21-29: the two mappings the description is generated with. *)
Definition merged_mappings
    (feature_descriptions : option (gmap key string))
    (primitive_templates : option (gmap key template))
    (metadata_file : option string)
  : res (gmap key string * gmap key template) :=
  let feature_descriptions := or_empty feature_descriptions in
  let primitive_templates := or_empty primitive_templates in
  match metadata_file with
  | Some path =>
      if String.eqb path "" then Ok (feature_descriptions, primitive_templates)
      else
        '(file_feature_descriptions, file_primitive_templates) ←
          parse_json_metadata path;
        Ok (dict_merge file_feature_descriptions feature_descriptions,
            dict_merge file_primitive_templates primitive_templates)
  | None => Ok (feature_descriptions, primitive_templates)
  end.

(** [description[:1].upper() + description[1:] + '.'] *)
Definition sentence (description : pyval) : res string :=
  match description with
  | VStr d => Ok (Str.upper (Str.take 1 d) +:+ Str.drop 1 d +:+ ".")
  | VNone => Raise TypeError   (* None is not subscriptable *)
  end.

Definition describe_feature (feature : Feature)
    (feature_descriptions : option (gmap key string))
    (primitive_templates : option (gmap key template))
    (metadata_file : option string) : res string :=
  '(feature_descriptions, primitive_templates) ←
    merged_mappings feature_descriptions primitive_templates metadata_file;
  description ←
    generate_description feature_descriptions primitive_templates feature;
  sentence description.

End describe_feature.

(** ** The same functions over a store of mutable objects

    Python passes objects by reference. Here every object the module is
    handed or builds is an object of a store, named by its address: the
    feature objects with their attributes, the lists behind
    [base_features], the override mappings, and the list of line 57 with
    its [append] (line 66) and [pop] (line 69). A function is a state
    transformer that may raise. The methods of the library that the module
    calls - [unique_name()], [get_name()], the primitive's
    [get_description(...)] and the constructor [ft.IdentityFeature(...)] -
    are parameters: computations on the same store, of which nothing is
    fixed here. Entities, relationships, primitives and windows are
    descriptive values held in the attributes of a feature object.

    A loop runs for at most [steps] turns and the recursion to a stack of
    [depth] frames; a run that needs more stops with [RecursionError] in
    the store it has reached. What is proved of this model is proved for
    every bound, that is, of every finite part of a run. *)

Module Heap.

Definition loc : Type := positive.

(** Modelled from the spec: the attributes of a feature object (class
    [FeatureBase] and its subclasses, not in the source file). An attribute
    that holds a feature or a list holds its address. *)
Record node := mk_node {
  class : FeatureClass;
  (** the feature object as a mapping key *)
  obj : positive;
  (** the name the object stores; the module never reads it, it calls
      [get_name()] and [unique_name()] *)
  name : string;
  entity_id : string;
  entity : Entity.t;
  base_features : loc;
  primitive : Primitive.t;
  relationship_path : list (bool * Relationship.t);
  where_ : option loc;
  use_previous : option Timedelta.t;
  base_feature : option loc;
  n : Z
}.

Inductive object :=
  | FeatureObject (nd : node)
  | Features (l : list loc)
  | Descriptions (d : gmap key string)
  | Templates (d : gmap key template)
  | Strings (l : list pyval).

Abbreviation store := (gmap loc object).

(** A computation: from a store to an outcome and the store it leaves. An
    exception keeps the store as it was when it was raised. *)
Record M (A : Type) := mk { run : store -> res A * store }.
Arguments mk {A} run.
Arguments run {A} m σ.

#[global] Instance M_ret : MRet M := fun _ a => mk (fun σ => (Ok a, σ)).
#[global] Instance M_bind : MBind M := fun _ _ k m =>
  mk (fun σ =>
        match run m σ with
        | (Ok a, σ') => run (k a) σ'
        | (Raise e, σ') => (Raise e, σ')
        end).

Definition lift {A} (r : res A) : M A := mk (fun σ => (r, σ)).

(** [{}], [[]] and every other expression that builds a new object *)
Definition new (o : object) : M loc :=
  mk (fun σ => let l := fresh (dom σ) in (Ok l, <[l := o]> σ)).

(** Any update of an object in place: an attribute assignment, an item
    assignment, [append], [pop], ... *)
Definition write (l : loc) (o : object) : M unit :=
  mk (fun σ => (Ok (), <[l := o]> σ)).

(** Reading the attributes, the mapping or the list behind a reference *)
Definition attr {A} (feature : loc) (field : node -> A) : M A :=
  mk (fun σ => match σ !! feature with
               | Some (FeatureObject nd) => (Ok (field nd), σ)
               | _ => (Raise AttributeError, σ)
               end).

Definition features (l : loc) : M (list loc) :=
  mk (fun σ => match σ !! l with
               | Some (Features fs) => (Ok fs, σ)
               | _ => (Raise TypeError, σ)
               end).

Definition descriptions (l : loc) : M (gmap key string) :=
  mk (fun σ => match σ !! l with
               | Some (Descriptions d) => (Ok d, σ)
               | _ => (Raise TypeError, σ)
               end).

Definition templates (l : loc) : M (gmap key template) :=
  mk (fun σ => match σ !! l with
               | Some (Templates d) => (Ok d, σ)
               | _ => (Raise TypeError, σ)
               end).

Definition strings (l : loc) : M (list pyval) :=
  mk (fun σ => match σ !! l with
               | Some (Strings xs) => (Ok xs, σ)
               | _ => (Raise AttributeError, σ)
               end).

(** [xs.append(v)] *)
Definition append (l : loc) (v : pyval) : M unit :=
  xs ← strings l;
  write l (Strings (xs ++ [v])).

(** [xs.pop()] *)
Definition pop (l : loc) : M pyval :=
  xs ← strings l;
  '(x, rest) ← lift (pop xs);
  write l (Strings rest);;
  mret x.

(** [k in d] and [d.get(k)] through a reference *)
Definition has (d : loc) (k : key) : M bool :=
  m ← descriptions d; mret (contains m k).

Definition lookup (d : loc) (k : key) : M pyval :=
  m ← descriptions d; mret (get m k).

(** [k1 in d or k2 in d], then [d.get(k1) or d.get(k2)], on a mapping of
    templates *)
Definition has_template_either (d : loc) (k1 k2 : key) : M bool :=
  m ← templates d;
  if contains m k1 then mret true
  else m' ← templates d; mret (contains m' k2).

Definition lookup_template_either (d : loc) (k1 k2 : key)
  : M (option template) :=
  m ← templates d;
  if template_truthy (m !! k1) then mret (m !! k1)
  else m' ← templates d; mret (m' !! k2).

(** The methods of the library that the module calls. *)
Class Library := {
  (** [feature.unique_name()] *)
  unique_name : loc -> M string;
  (** [feature.get_name()] *)
  get_name : loc -> M string;
  (** [primitive.get_description(input_descriptions, slice_num=...,
      template_override=...)]; the first argument is the list object *)
  get_description :
    Primitive.t -> loc -> option Z -> option template -> M string;
  (** [ft.IdentityFeature(variable)]: the address of the feature it builds *)
  new_IdentityFeature : Var.t -> M loc
}.

Section functions.
Context `{Library} `{FileSystem}.

(** The mapping object that the [def] of [get_aggregation_groupby] created
    for its default argument. *)
Variable default_feature_descriptions : loc.

Definition isinstance (feature : loc) (c : FeatureClass) : M bool :=
  attr feature (fun nd => bool_decide (class nd = c)).

(** [feature.relationship_path[-1][1]] *)
Definition last_relationship (feature : loc) : M Relationship.t :=
  path ← attr feature relationship_path;
  hop ← lift (last_item path);
  mret hop.2.

(** [xs[0]] on a list of features *)
Definition first_feature (xs : loc) : M loc :=
  l ← features xs; lift (first_item l).

(** [feature in d or feature.unique_name() in d] *)
Definition has_override (d : loc) (feature : loc) : M bool :=
  k ← attr feature obj;
  b ← has d (by_object k);
  if (b : bool) then mret true
  else u ← unique_name feature; has d (by_name u).

(** [d.get(feature) or d.get(feature.unique_name())] *)
Definition get_override (d : loc) (feature : loc) : M pyval :=
  k ← attr feature obj;
  v ← lookup d (by_object k);
  if truthy v then mret v
  else u ← unique_name feature; lookup d (by_name u).

(** The [while] loop of lines 126-131, run for at most [steps] tests;
    [columns] is the list the loop variable [base_features] holds. *)
Fixpoint direct_loop (steps : nat) (columns : loc)
    (direct_description : string) : M (loc * string) :=
  match steps with
  | O => lift (Raise RecursionError)
  | S steps =>
      first ← first_feature columns;
      direct ← isinstance first DirectFeature;
      if (direct : bool) then
        base_feat ← first_feature columns;
        rel ← last_relationship base_feat;
        let base_feat_description :=
          " the instance of " +:+
          quoted (Entity.id (Relationship.parent_entity rel)) +:+
          " associated with" in
        columns ← attr base_feat base_features;
        direct_loop steps columns (base_feat_description +:+ direct_description)
      else
        base ← first_feature columns;
        mret (base, " of" +:+ direct_description)
  end.

Definition get_direct_description (steps : nat) (feature : loc)
  : M (loc * string) :=
  rel ← last_relationship feature;
  eid ← attr feature entity_id;
  let direct_description :=
    " the instance of " +:+
    quoted (Entity.id (Relationship.parent_entity rel)) +:+
    " associated with this instance of " +:+
    quoted eid in
  columns ← attr feature base_features;
  direct_loop steps columns direct_description.

Definition get_aggregation_groupby (feature : loc)
    (feature_descriptions : option loc) : M string :=
  let feature_descriptions :=
    default default_feature_descriptions feature_descriptions in
  e ← attr feature entity;
  let groupby_name := Entity.index e in
  e ← attr feature entity;
  variable ← lift (Entity.getitem e groupby_name);
  groupby_feature ← new_IdentityFeature variable;
  found ← has_override feature_descriptions groupby_feature;
  if (found : bool) then
    description ← get_override feature_descriptions groupby_feature;
    match description with
    | VStr description =>
        if Str.startswith description "the "
        then mret (Str.drop 4 description)
        else mret description
    | VNone => lift (Raise AttributeError)
    end
  else
    e ← attr feature entity;
    mret (quoted groupby_name +:+ " in " +:+ quoted (Entity.id e)).

Section generate_description.
Variable feature_descriptions : loc.
Variable primitive_templates : loc.

(** One activation; [rec] stands for the recursive call and [steps] bounds
    the number of turns of each loop. *)
Section activation.
Variable rec : loc -> M pyval.
Variable steps : nat.

(** Lines 62-66: the loop over the list [input_columns], which it reads
    anew at every turn; [i] is the position of the iterator. *)
Fixpoint describe_inputs (steps : nat) (i : nat)
    (input_columns input_descriptions : loc) : M unit :=
  match steps with
  | O => lift (Raise RecursionError)
  | S steps =>
      l ← features input_columns;
      match l !! i with
      | None => mret ()
      | Some input_col =>
          col_description ← rec input_col;
          append input_descriptions col_description;;
          describe_inputs steps (S i) input_columns input_descriptions
      end
  end.

(** [feature.base_feature] *)
Definition get_base_feature (feature : loc) : M loc :=
  wrapped ← attr feature base_feature;
  lift (match wrapped with
        | Some f => Ok f
        | None => Raise AttributeError
        end).

(** Lines 56-69; the result is [groupby_description] and the reference
    held by [input_descriptions]. *)
Definition input_descriptions_of (feature : loc) : M (option pyval * loc) :=
  input_descriptions ← new (Strings []);
  input_columns ← attr feature base_features;
  slice ← isinstance feature FeatureOutputSlice;
  input_columns ←
    (if (slice : bool)
     then f ← get_base_feature feature; attr f base_features
     else mret input_columns);
  describe_inputs steps 0 input_columns input_descriptions;;
  groupby ← isinstance feature GroupByTransformFeature;
  if (groupby : bool)
  then last_description ← pop input_descriptions;
       mret (Some last_description, input_descriptions)
  else mret (None, input_descriptions).

(** Lines 71-81; the primitive is handed the list [input_descriptions]. *)
Definition primitive_description_of (feature : loc)
    (input_descriptions : loc) : M string :=
  slice ← isinstance feature FeatureOutputSlice;
  slice_num ←
    (if (slice : bool) then i ← attr feature n; mret (Some i) else mret None);
  prim ← attr feature primitive;
  found ← has_template_either primitive_templates
             (by_object (Primitive.obj prim)) (by_name (Primitive.name prim));
  template_override ←
    (if (found : bool)
     then lookup_template_either primitive_templates
            (by_object (Primitive.obj prim)) (by_name (Primitive.name prim))
     else mret None);
  prim ← attr feature primitive;
  get_description prim input_descriptions slice_num template_override.

(** Lines 82-83 *)
Definition working_feature (feature : loc) : M loc :=
  slice ← isinstance feature FeatureOutputSlice;
  if (slice : bool) then get_base_feature feature else mret feature.

(** Lines 85-91 *)
Definition groupby_of (feature : loc) (groupby_description : option pyval)
  : M string :=
  aggregation ← isinstance feature AggregationFeature;
  if (aggregation : bool) then
    groupby_name ← get_aggregation_groupby feature (Some feature_descriptions);
    mret ("for each " +:+ groupby_name)
  else
    groupby ← isinstance feature GroupByTransformFeature;
    if (groupby : bool) then
      match groupby_description with
      | Some d => mret ("for each " +:+ format d)
      | None => lift (Raise UnboundLocalError)
      end
    else mret "".

(** Lines 93-100 *)
Definition entity_description_of (feature : loc) : M string :=
  aggregation ← isinstance feature AggregationFeature;
  if (aggregation : bool) then
    window ← attr feature use_previous;
    let entity_description :=
      match window with
      | Some window =>
          "of the previous " +:+ Str.lower (Timedelta.get_name window) +:+ " of "
      | None => "of all instances of "
      end in
    rel ← last_relationship feature;
    mret (entity_description +:+ quoted (Entity.id (Relationship.child_entity rel)))
  else mret "".

(** Lines 102-112 *)
Definition where_of (feature : loc) : M string :=
  has_where ← isinstance feature AggregationFeature;
  where_clause ← (if (has_where : bool) then attr feature where_ else mret None);
  match where_clause with
  | Some w =>
      prim ← attr w primitive;
      where_value ←
        lift (match Primitive.value prim with
              | Some v => Ok v
              | None => Raise AttributeError
              end);
      found ← has_override feature_descriptions w;
      where_col ←
        (if (found : bool)
         then get_override feature_descriptions w
         else columns ← attr w base_features;
              b ← first_feature columns;
              rec b);
      mret ("where " +:+ format where_col +:+ " is " +:+ format where_value)
  | None => mret ""
  end.

Definition generate_description_body (feature : loc) : M pyval :=
  (* 1) Check if has its own description *)
  found ← has_override feature_descriptions feature;
  if (found : bool) then get_override feature_descriptions feature
  else
    (* 2) Check if identity feature *)
    identity ← isinstance feature IdentityFeature;
    if (identity : bool) then
      feature_name ← get_name feature;
      mret (VStr ("the " +:+ quoted feature_name))
    else
      (* 3) Deal with direct features *)
      direct ← isinstance feature DirectFeature;
      if (direct : bool) then
        '(base, direct_description) ← get_direct_description steps feature;
        direct_base ← rec base;
        lift (py_add direct_base direct_description)
      else
        '(groupby_description, input_descriptions) ←
          input_descriptions_of feature;
        primitive_description ←
          primitive_description_of feature input_descriptions;
        feature ← working_feature feature;
        groupby ← groupby_of feature groupby_description;
        entity_description ← entity_description_of feature;
        where_phrase ← where_of feature;
        mret (VStr (join_template
                      [primitive_description; entity_description;
                       where_phrase; groupby])).

End activation.

(** The recursion, bounded by the depth of the call stack. *)
Fixpoint generate_description (steps depth : nat) (feature : loc) : M pyval :=
  match depth with
  | O => lift (Raise RecursionError)
  | S depth =>
      generate_description_body (generate_description steps depth) steps feature
  end.

End generate_description.

(** [json.load] builds the two mappings as new objects *)
Definition parse_json_metadata (path : string) : M (loc * loc) :=
  f ← lift (open_ path);
  json_metadata ← lift (json_load f);
  fd ← new (Descriptions
              (default ∅ (Json.as_dict <$> Json.feature_descriptions json_metadata)));
  pt ← new (Templates
              (default ∅ (Json.as_dict <$> Json.primitive_templates json_metadata)));
  mret (fd, pt).

(** [if not d: d = {}]: an absent or empty mapping is replaced by a new one *)
Definition descriptions_or_empty (d : option loc) : M loc :=
  match d with
  | Some l => m ← descriptions l;
              if bool_decide (m = ∅) then new (Descriptions ∅) else mret l
  | None => new (Descriptions ∅)
  end.

Definition templates_or_empty (d : option loc) : M loc :=
  match d with
  | Some l => m ← templates l;
              if bool_decide (m = ∅) then new (Templates ∅) else mret l
  | None => new (Templates ∅)
  end.

(** Lines 21-29; [{**a, **b}] builds a new mapping from the two it reads. *)
Definition merged_mappings
    (feature_descriptions primitive_templates : option loc)
    (metadata_file : option string) : M (loc * loc) :=
  feature_descriptions ← descriptions_or_empty feature_descriptions;
  primitive_templates ← templates_or_empty primitive_templates;
  match metadata_file with
  | Some path =>
      if String.eqb path "" then mret (feature_descriptions, primitive_templates)
      else
        '(file_feature_descriptions, file_primitive_templates) ←
          parse_json_metadata path;
        base ← descriptions file_feature_descriptions;
        over ← descriptions feature_descriptions;
        fd ← new (Descriptions (dict_merge base over));
        base ← templates file_primitive_templates;
        over ← templates primitive_templates;
        pt ← new (Templates (dict_merge base over));
        mret (fd, pt)
  | None => mret (feature_descriptions, primitive_templates)
  end.

Definition describe_feature (steps depth : nat) (feature : loc)
    (feature_descriptions primitive_templates : option loc)
    (metadata_file : option string) : M string :=
  '(feature_descriptions, primitive_templates) ←
    merged_mappings feature_descriptions primitive_templates metadata_file;
  description ←
    generate_description feature_descriptions primitive_templates
      steps depth feature;
  lift (sentence description).

End functions.
End Heap.

(** ** Sample data: customers, their sessions and transactions *)

Module Sample.

Definition customers : Entity.t :=
  Entity.mk "customers" "id"
    [Var.mk "id" "id" "customers"; Var.mk "age" "age" "customers"].

Definition sessions : Entity.t :=
  Entity.mk "sessions" "id"
    [Var.mk "id" "id" "sessions"; Var.mk "customer_id" "customer_id" "sessions"].

Definition transactions : Entity.t :=
  Entity.mk "transactions" "id"
    [Var.mk "id" "id" "transactions"; Var.mk "amount" "amount" "transactions"].

Definition customers_sessions : Relationship.t := Relationship.mk customers sessions.
Definition sessions_transactions : Relationship.t := Relationship.mk sessions transactions.
Definition customers_transactions : Relationship.t := Relationship.mk customers transactions.

(** A primitive that renders ["the <word> of <inputs>"]; an override
    template replaces the word. *)
Definition render (word : string) (inputs : list pyval) (slice_num : option Z)
    (template_override : option template) : res string :=
  let w := match template_override with
           | Some (TStr t) => t
           | _ => word
           end in
  Ok ("the " +:+ w +:+ " of " +:+ Str.join ", " (format <$> inputs)).

Definition no_primitive : Primitive.t :=
  Primitive.mk 1 "" None (fun _ _ _ => Ok "").
Definition mean : Primitive.t := Primitive.mk 2 "mean" None (render "average").
Definition cum_sum : Primitive.t := Primitive.mk 5 "cum_sum" None (render "cumulative sum").

(** Identity features are keyed by their entity and column. *)
Definition identity (e : Entity.t) (column : string) : Feature :=
  mkFeature IdentityFeature (encode (Entity.id e, column))
    (Entity.id e +:+ ": " +:+ column) column (Entity.id e) e
    [] no_primitive [] None None None 0.

#[global] Instance model : FeatureModel := fun v =>
  mkFeature IdentityFeature (encode (Var.entity_id v, Var.name v))
    (Var.entity_id v +:+ ": " +:+ Var.name v) (Var.name v) (Var.entity_id v)
    (Entity.mk (Var.entity_id v) (Var.id v) [v])
    [] no_primitive [] None None None 0.

(** Only [meta.json] and [broken.json] exist; the second is not JSON. *)
#[global] Instance files : FileSystem := {|
  file := string;
  open_ path :=
    if String.eqb path "meta.json" then Ok "meta"
    else if String.eqb path "broken.json" then Ok "broken"
    else Raise (OSError 2);
  json_load f :=
    if String.eqb f "meta"
    then Ok (Json.mk (Some {[ "customers: age" := "the age in the file";
                              "customers: id" := "the customer" ]})
                     None)
    else Raise (JSONDecodeError "Expecting value")
|}.

Definition age : Feature := identity customers "age".
Definition amount : Feature := identity transactions "amount".

(** MEAN(transactions.amount) for each customer *)
Definition mean_amount (where_clause : option Feature)
    (window : option Timedelta.t) : Feature :=
  mkFeature AggregationFeature 100 "customers: MEAN(transactions.amount)"
    "MEAN(transactions.amount)" "customers" customers
    [amount] mean [(false, customers_transactions)]
    where_clause window None 0.

(** customers.age seen from a session, and that seen from a transaction *)
Definition session_age : Feature :=
  mkFeature DirectFeature 101 "sessions: customers.age" "customers.age"
    "sessions" sessions [age] no_primitive [(true, customers_sessions)]
    None None None 0.

Definition transaction_age : Feature :=
  mkFeature DirectFeature 102 "transactions: sessions.customers.age"
    "sessions.customers.age" "transactions" transactions [session_age]
    no_primitive [(true, sessions_transactions)] None None None 0.


(** CUM_SUM(amount) by session, and a sliced output that wraps it *)
Definition session_id_of_transaction : Feature := identity transactions "session_id".

Definition cum_sum_amount : Feature :=
  mkFeature GroupByTransformFeature 104 "transactions: CUM_SUM(amount) by session_id"
    "CUM_SUM(amount) by session_id" "transactions" transactions
    [amount; session_id_of_transaction] cum_sum [] None None None 0.

Definition sliced (f : Feature) (i : Z) : Feature :=
  mkFeature FeatureOutputSlice 105 "slice" "slice" (entity_id f) (entity f)
    [f] (primitive f) [] None None (Some f) i.

(** Override mappings and a store for the examples *)
Definition customer_id : Feature := identity customers "id".

Definition age_object_empty : gmap key string :=
  {[ by_object (obj age) := "" ]}.

Definition age_name_empty : gmap key string :=
  {[ by_name (unique_name age) := "" ]}.

Definition age_name_digit : gmap key string :=
  {[ by_name (unique_name age) := "1st entry of the age column" ]}.

Definition age_object_empty_name_given : gmap key string :=
  {[ by_object (obj age) := "";
     by_name (unique_name age) := "the age of the customer" ]}.

Definition id_object_empty : gmap key string :=
  {[ by_object (obj customer_id) := "" ]}.

Definition id_object_empty_name_given : gmap key string :=
  {[ by_object (obj customer_id) := "";
     by_name (unique_name customer_id) := "the customer" ]}.

Definition caller_descriptions : gmap key string :=
  {[ by_name "customers: id" := "the customer" ]}.

(** More features for the examples: a direct feature without relationship
    path, a transform over it, an aggregation over an entity whose index
    column is not among its columns, and an override for the direct feature
    in the middle of a chain. *)
Definition broken_direct : Feature :=
  mkFeature DirectFeature 106 "sessions: broken" "broken"
    "sessions" sessions [age] no_primitive [] None None None 0.

Definition cum_sum_broken : Feature :=
  mkFeature TransformFeature 107 "sessions: CUM_SUM(amount, broken, age)"
    "CUM_SUM(amount, broken, age)" "sessions" sessions
    [amount; broken_direct; age] cum_sum [] None None None 0.

Definition ledger : Entity.t :=
  Entity.mk "ledger" "row" [Var.mk "amount" "amount" "ledger"].

Definition mean_ledger : Feature :=
  mkFeature AggregationFeature 108 "ledger: MEAN(transactions.amount)"
    "MEAN(transactions.amount)" "ledger" ledger
    [amount] mean [(false, customers_transactions)] None None None 0.

(** A transform that goes by the key and the unique name of [customer_id] *)
Definition customer_id_sum : Feature :=
  mkFeature TransformFeature (obj customer_id) (unique_name customer_id)
    "CUM_SUM(amount)" "customers" customers [amount; age] cum_sum []
    None None None 0.

Definition session_age_described : gmap key string :=
  {[ by_name (unique_name session_age) := "how old the customer is" ]}.

(** The library for the examples: the names are attributes of the feature
    object, the primitive renders the list it is handed, and the
    constructor builds the feature object of [model] with an empty list of
    base features. *)
Definition node_of (f : Feature) (columns : Heap.loc)
    (where_clause wrapped : option Heap.loc) : Heap.node :=
  Heap.mk_node (class f) (obj f) (get_name f) (entity_id f) (entity f)
    columns (primitive f) (relationship_path f) where_clause
    (use_previous f) wrapped (n f).

#[global] Instance library : Heap.Library := {|
  Heap.unique_name feature :=
    Heap.attr feature (fun nd => Heap.entity_id nd +:+ ": " +:+ Heap.name nd);
  Heap.get_name feature := Heap.attr feature Heap.name;
  Heap.get_description prim input_descriptions slice_num template_override :=
    inputs ← Heap.strings input_descriptions;
    Heap.lift (Primitive.get_description prim inputs slice_num template_override);
  Heap.new_IdentityFeature variable :=
    columns ← Heap.new (Heap.Features []);
    Heap.new (Heap.FeatureObject
                (node_of (new_IdentityFeature variable) columns None None))
|}.

(** A store: the default mapping of [get_aggregation_groupby] at address 1,
    the caller's two mappings at 2 and 3, the feature [amount] at 5 and
    the aggregation [mean_amount] over it at 7, each with its list of base
    features at the address before, one more empty mapping at 8, and the
    chain of direct features [transaction_age] (14) over [session_age] (12)
    over [age] (10). *)
Definition store : Heap.store :=
  list_to_map
    [ (1%positive, Heap.Descriptions ∅);
      (2%positive, Heap.Descriptions caller_descriptions);
      (3%positive, Heap.Templates ∅);
      (4%positive, Heap.Features []);
      (5%positive, Heap.FeatureObject (node_of amount 4%positive None None));
      (6%positive, Heap.Features [5%positive]);
      (7%positive, Heap.FeatureObject
                     (node_of (mean_amount None None) 6%positive None None));
      (8%positive, Heap.Descriptions ∅);
      (9%positive, Heap.Features []);
      (10%positive, Heap.FeatureObject (node_of age 9%positive None None));
      (11%positive, Heap.Features [10%positive]);
      (12%positive, Heap.FeatureObject
                      (node_of session_age 11%positive None None));
      (13%positive, Heap.Features [12%positive]);
      (14%positive, Heap.FeatureObject
                      (node_of transaction_age 13%positive None None)) ].

End Sample.

(** ** The vocabulary of the statements *)

Definition is_letter (c : ascii) : bool := Str.is_lower c || Str.is_upper c.

(** A character of the ASCII range, and a string of such characters. On
    these strings [Str.upper], [Str.take] and [Str.drop] are Python's
    [str.upper] and slices; outside them [str.upper] follows the Unicode
    case tables and can even change the length of a string. *)
Definition is_ascii (c : ascii) : bool := (nat_of_ascii c <? 128)%nat.

Fixpoint ascii_only (s : string) : bool :=
  match s with
  | EmptyString => true
  | String c s' => is_ascii c && ascii_only s'
  end.

(** [s] between two double-quote characters (code point 34), written out
    character by character. *)
Definition in_double_quotes (s : string) : string :=
  String "034"%char (s +:+ String "034"%char EmptyString).

(** Two phrases side by side: one space between them when both are there. *)
Definition glue (a b : string) : string :=
  if bool_decide (a = "") then b
  else if bool_decide (b = "") then a
  else a +:+ " " +:+ b.

Definition starts_uppercase (s : string) : bool :=
  match Str.first s with
  | Some c => Str.is_upper c
  | None => false
  end.

Definition ends_with_period (s : string) : bool :=
  match Str.last s with
  | Some c => Ascii.eqb c "."
  | None => false
  end.

(** The test and the selection that lines 39-41, 106-107 and 140-142 each
    spell out, named for the statements below. *)
Definition overridden (fd : gmap key string) (f : Feature) : bool :=
  contains fd (by_object (obj f)) || contains fd (by_name (unique_name f)).

Definition override_of (fd : gmap key string) (f : Feature) : pyval :=
  py_or (get fd (by_object (obj f))) (get fd (by_name (unique_name f))).

(** [direct_chain f ds b]: below [f], following first base features, come
    the direct features [ds] (outermost first) and then [b], which is not a
    direct feature. *)
Inductive direct_chain : Feature -> list Feature -> Feature -> Prop :=
  | direct_chain_end cur b rest :
      base_features cur = b :: rest ->
      isinstance b DirectFeature = false ->
      direct_chain cur [] b
  | direct_chain_step cur d rest ds b :
      base_features cur = d :: rest ->
      isinstance d DirectFeature = true ->
      direct_chain d ds b ->
      direct_chain cur (d :: ds) b.

(** The fragment one inner direct feature contributes. *)
Definition hop_fragment (rel : Relationship.t) : string :=
  " the instance of " +:+ quoted (Entity.id (Relationship.parent_entity rel))
  +:+ " associated with".

(** The fragments of the inner direct features, innermost first. *)
Definition hop_fragments (rels : list Relationship.t) : string :=
  String.concat "" (rev (hop_fragment <$> rels)).

(** The same fragments with the double quotes written out. *)
Definition quoted_hop (rel : Relationship.t) : string :=
  " the instance of "
  +:+ in_double_quotes (Entity.id (Relationship.parent_entity rel))
  +:+ " associated with".

Definition quoted_hops (rels : list Relationship.t) : string :=
  String.concat "" (rev (quoted_hop <$> rels)).

(** ["the "] taken off the front, when it is there. *)
Definition strip_the (s : string) : string :=
  if Str.startswith s "the " then Str.drop 4 s else s.

(** Every object of [σ] is, unchanged, an object of [σ']: the feature
    objects with all their attributes, the lists of base features, the
    mappings. *)
Definition objects_unchanged (σ σ' : Heap.store) : Prop :=
  forall l o, σ !! l = Some o -> σ' !! l = Some o.

(** A computation keeps the objects of [σ0]: started in a store that has
    them, it leaves a store that has them. It may build new objects and
    update those. *)
Definition keeps {A} (σ0 : Heap.store) (m : Heap.M A) : Prop :=
  forall σ, objects_unchanged σ0 σ -> objects_unchanged σ0 (Heap.run m σ).2.

(** The library methods only read the objects they find: whatever the
    store, they keep its objects. *)
Class ReadOnly (L : Heap.Library) : Prop := {
  unique_name_keeps σ0 feature : keeps σ0 (Heap.unique_name feature);
  get_name_keeps σ0 feature : keeps σ0 (Heap.get_name feature);
  get_description_keeps σ0 prim input_descriptions slice_num template_override :
    keeps σ0 (Heap.get_description prim input_descriptions slice_num
                template_override);
  new_IdentityFeature_keeps σ0 variable :
    keeps σ0 (Heap.new_IdentityFeature variable)
}.

(** The template [get_description] is handed: the one under the primitive
    object unless it is empty, else the one under the primitive's name. *)
Definition template_of (pt : gmap key template) (f : Feature)
  : option template :=
  template_or (pt !! by_object (Primitive.obj (primitive f)))
              (pt !! by_name (Primitive.name (primitive f))).

(** The phrase of a direct feature with relationship [rel] whose inner
    direct features have the relationships [rels]. *)
Definition direct_phrase (f : Feature) (rel : Relationship.t)
    (rels : list Relationship.t) : string :=
  " of" +:+ hop_fragments rels
  +:+ " the instance of "
  +:+ quoted (Entity.id (Relationship.parent_entity rel))
  +:+ " associated with this instance of " +:+ quoted (entity_id f).

(** The features of a tree: the feature itself and what is below its base
    features, its where clause and the feature it wraps. *)
Fixpoint subfeatures (f : Feature) : list Feature :=
  match f with
  | mkFeature _ _ _ _ _ _ bfs _ _ wh _ bf _ =>
      f :: List.flat_map subfeatures bfs
        ++ from_option subfeatures [] wh
        ++ from_option subfeatures [] bf
  end.

(** The identity feature that [get_aggregation_groupby] builds for a
    feature, when the index column exists. *)
Definition groupby_feature_of `{FeatureModel} (f : Feature) : option Feature :=
  match Entity.getitem (entity f) (Entity.index (entity f)) with
  | Ok variable => Some (new_IdentityFeature variable)
  | Raise _ => None
  end.

(** Two override mappings have the same entries for a feature. *)
Definition same_entries (fd fd' : gmap key string) (g : Feature) : Prop :=
  fd !! by_object (obj g) = fd' !! by_object (obj g)
  /\ fd !! by_name (unique_name g) = fd' !! by_name (unique_name g).

(** Two override mappings have the same entries for every feature of a
    tree and for the group-by features built for its aggregations. *)
Definition same_overrides `{FeatureModel} (fd fd' : gmap key string)
    (f : Feature) : Prop :=
  forall g, g ∈ subfeatures f ->
    same_entries fd fd' g
    /\ (isinstance g AggregationFeature = true ->
        forall i, groupby_feature_of g = Some i -> same_entries fd fd' i).

(** Two template mappings select the same template for the primitive of
    every feature of a tree. *)
Definition same_templates (pt pt' : gmap key template) (f : Feature) : Prop :=
  forall g, g ∈ subfeatures f -> template_of pt g = template_of pt' g.

(** * Properties *)

(** ** The error monad *)

Lemma bind_Ok {A B} (m : res A) (k : A -> res B) (b : B) :
  m ≫= k = Ok b -> exists a, m = Ok a /\ k a = Ok b.
Proof. destruct m as [a|e]; [eauto | discriminate]. Qed.

Lemma bind_Raise {A B} (e : exn) (k : A -> res B) :
  Raise e ≫= k = Raise e.
Proof. reflexivity. Qed.

Lemma for_each_ext {A B} (f g : A -> res B) (xs : list A) :
  (forall x, x ∈ xs -> f x = g x) -> for_each f xs = for_each g xs.
Proof.
  induction xs as [|x xs IH]; intros Hfg; [reflexivity|].
  cbn. rewrite (Hfg x) by left.
  rewrite IH; [reflexivity|]. intros y Hy. apply Hfg. by right.
Qed.

(** ** Heights: every feature the renderer descends into is lower *)

Lemma height_unfold (f : Feature) :
  height f =
  S (max (foldr max 0 (List.map height (base_features f)))
         (max (from_option height 0 (where_ f))
              (from_option height 0 (base_feature f)))).
Proof. by destruct f. Qed.

Lemma foldr_max_elem (x : nat) (xs : list nat) :
  x ∈ xs -> x <= foldr max 0 xs.
Proof.
  induction 1 as [x xs|x y xs _ IH]; cbn; lia.
Qed.

Lemma height_base_features (f g : Feature) :
  g ∈ base_features f -> height g < height f.
Proof.
  intros Hg. rewrite (height_unfold f).
  assert (height g <= foldr max 0 (List.map height (base_features f))).
  { apply foldr_max_elem. apply list_elem_of_In, in_map.
    by apply list_elem_of_In. }
  lia.
Qed.

Lemma height_where (f g : Feature) :
  where_ f = Some g -> height g < height f.
Proof. intros Hg. rewrite (height_unfold f), Hg. cbn. lia. Qed.

Lemma height_base_feature (f g : Feature) :
  base_feature f = Some g -> height g < height f.
Proof. intros Hg. rewrite (height_unfold f), Hg. cbn. lia. Qed.

Lemma height_pos (f : Feature) : 0 < height f.
Proof. rewrite height_unfold. lia. Qed.

Lemma direct_loop_unfold (cur : Feature) (dd : string) :
  direct_loop cur dd =
  match base_features cur with
  | [] => Raise IndexError
  | base_feat :: _ =>
      if isinstance base_feat DirectFeature then
        rel ← last_relationship base_feat;
        direct_loop base_feat
          ((" the instance of " +:+
            quoted (Entity.id (Relationship.parent_entity rel)) +:+
            " associated with") +:+ dd)
      else Ok (base_feat, " of" +:+ dd)
  end.
Proof. by destruct cur. Qed.

Lemma direct_loop_height (k : nat) :
  forall cur dd b d,
    height cur <= k -> direct_loop cur dd = Ok (b, d) -> height b < height cur.
Proof.
  induction k as [|k IH]; intros cur dd b d Hk.
  { pose proof (height_pos cur). lia. }
  rewrite direct_loop_unfold.
  destruct (base_features cur) as [|g rest] eqn:Hbf; [discriminate|].
  assert (height g < height cur) as Hg.
  { apply height_base_features. rewrite Hbf. left. }
  destruct (isinstance g DirectFeature).
  - intros Hloop. apply bind_Ok in Hloop as (rel & _ & Hloop).
    apply IH in Hloop; lia.
  - intros [= <- _]. done.
Qed.

Lemma get_direct_description_height (f b : Feature) (d : string) :
  get_direct_description f = Ok (b, d) -> height b < height f.
Proof.
  unfold get_direct_description. intros Hd.
  apply bind_Ok in Hd as (rel & _ & Hd).
  by eapply direct_loop_height.
Qed.

(** ** The recursion is well founded *)

Section recursion.
Context `{FeatureModel}.
Variable fd : gmap key string.
Variable pt : gmap key template.

Lemma get_base_feature_height (f g : Feature) :
  get_base_feature f = Ok g -> height g < height f.
Proof.
  unfold get_base_feature. destruct (base_feature f) eqn:Hbf; [|discriminate].
  intros [= <-]. by apply height_base_feature.
Qed.

Lemma input_descriptions_of_ext (rec rec' : Feature -> res pyval) (f : Feature) :
  (forall g, height g < height f -> rec g = rec' g) ->
  input_descriptions_of rec f = input_descriptions_of rec' f.
Proof.
  intros Hrec. unfold input_descriptions_of.
  destruct (isinstance f FeatureOutputSlice).
  - destruct (get_base_feature f) as [g|e] eqn:Hg; [|reflexivity].
    cbn. rewrite (for_each_ext rec rec'); [reflexivity|].
    intros x Hx. apply Hrec.
    apply get_base_feature_height in Hg.
    apply height_base_features in Hx. lia.
  - cbn. rewrite (for_each_ext rec rec'); [reflexivity|].
    intros x Hx. apply Hrec. by apply height_base_features.
Qed.

Lemma where_of_ext (rec rec' : Feature -> res pyval) (f : Feature) :
  (forall g, S (height g) < height f -> rec g = rec' g) ->
  where_of fd rec f = where_of fd rec' f.
Proof.
  intros Hrec. unfold where_of.
  destruct (has_where f); [|reflexivity].
  destruct (where_ f) as [w|] eqn:Hw; [|reflexivity].
  destruct (Primitive.value (primitive w)); [|reflexivity]. cbn.
  destruct (_ || _); [reflexivity|].
  destruct (base_features w) as [|b rest] eqn:Hb; [reflexivity|]. cbn.
  rewrite (Hrec b); [reflexivity|].
  apply height_where in Hw.
  assert (height b < height w); [|lia].
  apply height_base_features. rewrite Hb. left.
Qed.

Lemma generate_description_body_ext (rec rec' : Feature -> res pyval) (f : Feature) :
  (forall g, height g < height f -> rec g = rec' g) ->
  generate_description_body fd pt rec f = generate_description_body fd pt rec' f.
Proof.
  intros Hrec. unfold generate_description_body.
  destruct (_ || _); [reflexivity|].
  destruct (isinstance f IdentityFeature); [reflexivity|].
  destruct (isinstance f DirectFeature).
  { destruct (get_direct_description f) as [[b d]|e] eqn:Hd; [|reflexivity].
    cbn. rewrite (Hrec b); [reflexivity|].
    by eapply get_direct_description_height. }
  rewrite (input_descriptions_of_ext rec rec' f Hrec).
  destruct (input_descriptions_of rec' f) as [[gd ins]|e]; [|reflexivity]. cbn.
  destruct (primitive_description_of pt f ins) as [p|e]; [|reflexivity]. cbn.
  unfold working_feature.
  destruct (isinstance f FeatureOutputSlice).
  - destruct (get_base_feature f) as [g|e] eqn:Hg; [|reflexivity]. cbn.
    destruct (groupby_of fd g gd); [|reflexivity]. cbn.
    destruct (entity_description_of g); [|reflexivity]. cbn.
    rewrite (where_of_ext rec rec' g); [reflexivity|].
    intros x Hx. apply Hrec. apply get_base_feature_height in Hg. lia.
  - cbn. destruct (groupby_of fd f gd); [|reflexivity]. cbn.
    destruct (entity_description_of f); [|reflexivity]. cbn.
    rewrite (where_of_ext rec rec' f); [reflexivity|].
    intros x Hx. apply Hrec. lia.
Qed.

Lemma generate_description_depth_stable (d d' : nat) (f : Feature) :
  height f <= d -> height f <= d' ->
  generate_description_depth fd pt d f = generate_description_depth fd pt d' f.
Proof.
  revert d' f. induction d as [|d IH]; intros d' f Hd Hd'.
  { pose proof (height_pos f). lia. }
  destruct d' as [|d']. { pose proof (height_pos f). lia. }
  cbn. apply generate_description_body_ext.
  intros g Hg. apply IH; lia.
Qed.

(** Any call stack at least as deep as the feature tree gives the result of
    [generate_description]. *)
Lemma generate_description_depth_enough (d : nat) (f : Feature) :
  height f <= d ->
  generate_description_depth fd pt d f = generate_description fd pt f.
Proof.
  intros Hd. unfold generate_description.
  by apply generate_description_depth_stable.
Qed.

(** The defining equation of the recursive function. *)
Lemma generate_description_eq (f : Feature) :
  generate_description fd pt f =
  generate_description_body fd pt (generate_description fd pt) f.
Proof.
  unfold generate_description at 1.
  pose proof (height_pos f).
  destruct (height f) as [|d] eqn:Hh; [lia|]. cbn.
  apply generate_description_body_ext.
  intros g Hg. apply generate_description_depth_enough. lia.
Qed.

End recursion.

(** ** Strings *)

Lemma upper_char_not_lower (c : ascii) : Str.is_lower (Str.upper_char c) = false.
Proof. destruct c as [[] [] [] [] [] [] [] []]; reflexivity. Qed.

Lemma upper_char_is_upper (c : ascii) :
  Str.is_upper (Str.upper_char c) = is_letter c.
Proof. destruct c as [[] [] [] [] [] [] [] []]; reflexivity. Qed.

Lemma upper_char_idemp (c : ascii) :
  Str.upper_char (Str.upper_char c) = Str.upper_char c.
Proof. destruct c as [[] [] [] [] [] [] [] []]; reflexivity. Qed.

Lemma upper_char_fixes_upper (c : ascii) :
  Str.is_lower c = false -> Str.upper_char c = c.
Proof. unfold Str.upper_char. by intros ->. Qed.

Lemma last_append_char (s : string) (c : ascii) :
  Str.last (s +:+ String c EmptyString) = Some c.
Proof.
  induction s as [|a s IH]; [reflexivity|].
  change (Str.last (String a (s +:+ String c EmptyString)) = Some c).
  destruct s as [|b s]; [reflexivity|]. exact IH.
Qed.

Lemma append_cons (x : ascii) (a b : string) :
  String x a +:+ b = String x (a +:+ b).
Proof. reflexivity. Qed.

Lemma append_assoc (a b c : string) : a +:+ b +:+ c = (a +:+ b) +:+ c.
Proof.
  induction a as [|x a IH]; [done|]. rewrite !append_cons. by f_equal.
Qed.

Lemma quoted_in_double_quotes (s : string) : quoted s = in_double_quotes s.
Proof. reflexivity. Qed.

Lemma upper_char_ascii (c : ascii) :
  is_ascii c = true -> is_ascii (Str.upper_char c) = true.
Proof. destruct c as [[] [] [] [] [] [] [] []]; intros Hc; done. Qed.

Lemma ascii_only_app (a b : string) :
  ascii_only (a +:+ b) = ascii_only a && ascii_only b.
Proof.
  induction a as [|x a IH]; [reflexivity|].
  rewrite append_cons. cbn. by rewrite IH, andb_assoc.
Qed.

Lemma string_eqb_empty (s : string) : String.eqb s "" = bool_decide (s = "").
Proof. destruct s; reflexivity. Qed.

Lemma join_template_nil : join_template [] = "".
Proof. reflexivity. Qed.

Lemma concat_nonempty_empty (sep : string) (xs : list string) :
  Forall (fun x => x <> "") xs -> String.concat sep xs = "" -> xs = [].
Proof.
  destruct 1 as [|x xs Hx Hxs]; [done|].
  cbn. destruct xs; [done|]. destruct x; [done|discriminate].
Qed.

Lemma join_template_cons (x : string) (xs : list string) :
  join_template (x :: xs) = glue x (join_template xs).
Proof.
  unfold join_template, glue, Str.join. rewrite filter_cons.
  destruct (decide (x <> "")) as [Hx|Hx].
  - rewrite bool_decide_eq_false_2 by done. cbn.
    destruct (filter _ xs) as [|y ys] eqn:Hf; [by rewrite bool_decide_eq_true_2|].
    rewrite bool_decide_eq_false_2; [done|].
    intros Hempty.
    apply (concat_nonempty_empty " " (y :: ys)) in Hempty; [done|].
    rewrite <- Hf. apply Forall_forall. intros z Hz.
    by apply list_elem_of_filter in Hz as [? _].
  - apply dec_stable in Hx. by rewrite bool_decide_eq_true_2.
Qed.

Lemma join_template_four (p e w g : string) :
  join_template [p; e; w; g] = glue p (glue e (glue w g)).
Proof.
  rewrite !join_template_cons, join_template_nil.
  do 3 f_equal. unfold glue. by repeat case_bool_decide.
Qed.

(** ** [describe_feature]: the sentence *)

Lemma sentence_VStr (d : string) :
  sentence (VStr d) = Ok (Str.upper (Str.take 1 d) +:+ Str.drop 1 d +:+ ".").
Proof. reflexivity. Qed.

Lemma sentence_ends_with_period (d s : string) :
  sentence (VStr d) = Ok s -> ends_with_period s = true.
Proof.
  rewrite sentence_VStr. intros [= <-]. unfold ends_with_period.
  by rewrite append_assoc, last_append_char.
Qed.

(** C1, counterexample: an override that maps the feature's unique name to
    the empty string makes the generated phrase empty, and the sentence is
    then the single character ["."]; an override that starts with a digit
    gives a sentence that starts with that digit. Neither sentence starts
    with an uppercase letter. *)
Lemma describe_feature_empty_phrase_not_capitalized :
  ~ (exists s,
        describe_feature Sample.age (Some Sample.age_name_empty) None None
        = Ok s
        /\ starts_uppercase s = true /\ ends_with_period s = true)
  /\ ~ (exists s,
          describe_feature Sample.age (Some Sample.age_name_digit) None None
          = Ok s
          /\ starts_uppercase s = true /\ ends_with_period s = true).
Proof.
  split.
  - intros (s & Hs & Hup & _).
    vm_compute in Hs. injection Hs as <-. discriminate Hup.
  - intros (s & Hs & Hup & _).
    vm_compute in Hs. injection Hs as <-. discriminate Hup.
Qed.

(** C1, as amended: whenever the generated phrase is a string [d] of ASCII
    characters, [describe_feature] returns [d] with its first character
    upper-cased and a period appended, again a string of ASCII characters.
    The result always ends with ['.']; for an empty [d] it is exactly
    ["."]; otherwise its first character is the upper-case form of [d]'s
    first character, which is never a lowercase letter and is an uppercase
    letter exactly when [d] starts with a letter (an already uppercase
    first letter is kept), and the rest of [d] is unchanged. *)
Theorem describe_feature_sentence `{FeatureModel} `{FileSystem}
    (feature : Feature)
    (feature_descriptions : option (gmap key string))
    (primitive_templates : option (gmap key template))
    (metadata_file : option string)
    (fd : gmap key string) (pt : gmap key template) (d : string) :
  merged_mappings feature_descriptions primitive_templates metadata_file
    = Ok (fd, pt) ->
  generate_description fd pt feature = Ok (VStr d) ->
  ascii_only d = true ->
  exists s,
    describe_feature feature feature_descriptions primitive_templates
      metadata_file = Ok s
    /\ ascii_only s = true
    /\ ends_with_period s = true
    /\ match d with
       | EmptyString => s = "."
       | String c rest =>
           s = String (Str.upper_char c) (rest +:+ ".")
           /\ Str.is_lower (Str.upper_char c) = false
           /\ starts_uppercase s = is_letter c
           /\ (Str.is_upper c = true -> Str.upper_char c = c)
       end.
Proof.
  intros Hmerged Hgen Hascii.
  exists (Str.upper (Str.take 1 d) +:+ Str.drop 1 d +:+ ".").
  split; [|split; [|split]].
  - unfold describe_feature. rewrite Hmerged. cbn. by rewrite Hgen.
  - destruct d as [|c rest]; [reflexivity|].
    cbn in Hascii. apply andb_true_iff in Hascii as [Hc Hrest].
    change (ascii_only (String (Str.upper_char c) (rest +:+ ".")) = true).
    cbn [ascii_only].
    by rewrite (upper_char_ascii c Hc), ascii_only_app, Hrest.
  - by eapply sentence_ends_with_period.
  - destruct d as [|c rest]; [reflexivity|].
    repeat split.
    + apply upper_char_not_lower.
    + cbn. apply upper_char_is_upper.
    + intros Hc. apply upper_char_fixes_upper.
      destruct c as [[] [] [] [] [] [] [] []]; try reflexivity; discriminate Hc.
Qed.

Lemma describe_feature_sentence_witness :
  exists s,
    describe_feature Sample.age None None None = Ok s
    /\ ascii_only s = true
    /\ ends_with_period s = true
    /\ s = String (Str.upper_char "t") ("he " +:+ in_double_quotes "age" +:+ ".")
    /\ Str.is_lower (Str.upper_char "t") = false
    /\ starts_uppercase s = is_letter "t"
    /\ (Str.is_upper "t" = true -> Str.upper_char "t" = "t"%char).
Proof.
  apply (describe_feature_sentence Sample.age None None None ∅ ∅
           ("the " +:+ in_double_quotes "age")); reflexivity.
Defined.

(** ** The override lookup *)

Lemma contains_true {V} (d : gmap key V) (k : key) (v : V) :
  d !! k = Some v -> contains d k = true.
Proof. intros Hk. unfold contains. apply bool_decide_eq_true_2. by exists v. Qed.

Lemma contains_false {V} (d : gmap key V) (k : key) :
  d !! k = None -> contains d k = false.
Proof.
  intros Hk. unfold contains. apply bool_decide_eq_false_2.
  rewrite Hk. by intros [? ?].
Qed.

Lemma truthy_VStr (s : string) : s <> "" -> truthy (VStr s) = true.
Proof. intros Hs. cbn. rewrite string_eqb_empty. by rewrite bool_decide_eq_false_2. Qed.

Lemma override_of_object (fd : gmap key string) (f : Feature) (s : string) :
  fd !! by_object (obj f) = Some s -> s <> "" -> override_of fd f = VStr s.
Proof.
  intros Hk Hs. unfold override_of, py_or, get. rewrite Hk.
  by rewrite truthy_VStr.
Qed.

Lemma override_of_falsy (fd : gmap key string) (f : Feature) :
  fd !! by_object (obj f) = Some "" ->
  override_of fd f = get fd (by_name (unique_name f)).
Proof. intros Hk. unfold override_of, py_or, get at 1 2. by rewrite Hk. Qed.

Lemma override_of_name (fd : gmap key string) (f : Feature) :
  fd !! by_object (obj f) = None ->
  override_of fd f = get fd (by_name (unique_name f)).
Proof. intros Hk. unfold override_of, py_or, get at 1 2. by rewrite Hk. Qed.

Section overrides.
Context `{FeatureModel}.
Variable fd : gmap key string.
Variable pt : gmap key template.

Lemma generate_description_overridden (f : Feature) :
  overridden fd f = true ->
  generate_description fd pt f = Ok (override_of fd f).
Proof.
  intros Ho. rewrite generate_description_eq. unfold generate_description_body.
  unfold overridden in Ho. by rewrite Ho.
Qed.

(** The override is returned verbatim whenever the selected value is a
    non-empty string, whatever the class and the children of the feature. *)
Lemma generate_description_override_by_object (f : Feature) (s : string) :
  fd !! by_object (obj f) = Some s -> s <> "" ->
  generate_description fd pt f = Ok (VStr s).
Proof.
  intros Hk Hs. rewrite generate_description_overridden.
  - by rewrite (override_of_object fd f s).
  - unfold overridden. by rewrite (contains_true _ _ s).
Qed.

Lemma generate_description_override_by_name (f : Feature) (s : string) :
  fd !! by_object (obj f) = None ->
  fd !! by_name (unique_name f) = Some s ->
  generate_description fd pt f = Ok (VStr s).
Proof.
  intros Hk Hn. rewrite generate_description_overridden.
  - rewrite override_of_name by done. unfold get. by rewrite Hn.
  - unfold overridden. rewrite (contains_true _ (by_name _) s) by done.
    by rewrite orb_true_r.
Qed.

End overrides.

(** C2, the failing input: the identity feature [age], keyed as an object
    and mapped to the empty string. The key is present, yet
    [generate_description] does not return the mapped string: it returns
    [None], and [describe_feature] then raises [TypeError]. *)
Lemma generate_description_empty_override :
  overridden Sample.age_object_empty Sample.age = true
  /\ Sample.age_object_empty !! by_object (obj Sample.age) = Some ""
  /\ generate_description Sample.age_object_empty ∅ Sample.age = Ok VNone
  /\ describe_feature Sample.age (Some Sample.age_object_empty) None None
     = Raise TypeError.
Proof. vm_compute. done. Qed.

(** C10: when the feature object is a key whose value is the empty string,
    the lookup does not stop at that entry. [generate_description] returns
    what the unique name maps to, and [None] when the unique name is not a
    key; the where clause formats that same fallback (so an absent name
    reads [None]); and the group-by resolver strips and returns the value
    under the unique name, or fails on [None] when there is none. *)
Theorem falsy_object_override_falls_back `{FeatureModel}
    (fd : gmap key string) (pt : gmap key template) :
  (forall f,
      fd !! by_object (obj f) = Some "" ->
      generate_description fd pt f = Ok (get fd (by_name (unique_name f)))
      /\ (fd !! by_name (unique_name f) = None ->
          generate_description fd pt f = Ok VNone))
  /\ (forall rec f w v,
        has_where f = true -> where_ f = Some w ->
        Primitive.value (primitive w) = Some v ->
        fd !! by_object (obj w) = Some "" ->
        where_of fd rec f =
          Ok ("where " +:+ format (get fd (by_name (unique_name w)))
              +:+ " is " +:+ format v))
  /\ (forall f variable,
        Entity.getitem (entity f) (Entity.index (entity f)) = Ok variable ->
        fd !! by_object (obj (new_IdentityFeature variable)) = Some "" ->
        get_aggregation_groupby f fd =
          match fd !! by_name (unique_name (new_IdentityFeature variable)) with
          | Some s => Ok (if Str.startswith s "the " then Str.drop 4 s else s)
          | None => Raise AttributeError
          end).
Proof.
  split; [|split].
  - intros f Hk.
    assert (generate_description fd pt f = Ok (get fd (by_name (unique_name f))))
      as Hgen.
    { rewrite generate_description_overridden.
      - by rewrite override_of_falsy.
      - unfold overridden. by rewrite (contains_true _ _ "" Hk). }
    split; [done|]. intros Hn. rewrite Hgen. unfold get. by rewrite Hn.
  - intros rec f w v Hhas Hw Hv Hk. unfold where_of.
    rewrite Hhas, Hw, Hv. cbn.
    rewrite (contains_true _ _ "" Hk). cbn.
    fold (override_of fd w). by rewrite override_of_falsy.
  - intros f variable Hvar Hk. unfold get_aggregation_groupby.
    rewrite Hvar. cbn.
    rewrite (contains_true _ _ "" Hk). cbn.
    fold (override_of fd (new_IdentityFeature variable)).
    rewrite override_of_falsy by done. unfold get.
    destruct (fd !! by_name _) as [s|]; [|done].
    by destruct (Str.startswith s "the ").
Qed.

Lemma falsy_object_override_falls_back_witness :
  generate_description Sample.age_object_empty_name_given ∅ Sample.age
  = Ok (VStr "the age of the customer").
Proof.
  apply (proj1 (falsy_object_override_falls_back
                  Sample.age_object_empty_name_given ∅) Sample.age).
  reflexivity.
Defined.

(** ** Metadata: merging and failures *)

Lemma or_empty_Some {V} (m : gmap key V) : or_empty (Some m) = m.
Proof. unfold or_empty. by case_bool_decide. Qed.

Lemma dict_merge_over {V} (base over : gmap key V) (k : key) (v : V) :
  over !! k = Some v -> dict_merge base over !! k = Some v.
Proof. intros Hk. unfold dict_merge. by apply lookup_union_Some_l. Qed.

Lemma dict_merge_base {V} (base over : gmap key V) (k : key) :
  over !! k = None -> dict_merge base over !! k = base !! k.
Proof. intros Hk. unfold dict_merge. by apply lookup_union_r. Qed.

Lemma path_given (path : string) : path <> "" -> String.eqb path "" = false.
Proof. intros Hp. rewrite string_eqb_empty. by apply bool_decide_eq_false_2. Qed.

(** C3: with a metadata file that loads, [describe_feature] renders with the
    merged mappings, and in both of them every key the caller passed keeps
    the caller's value - in particular a key that the file defines too -
    while the file's value is used only for keys the caller did not pass. *)
Theorem merged_mappings_caller_wins `{FeatureModel} `{FileSystem}
    (feature_descriptions : option (gmap key string))
    (primitive_templates : option (gmap key template))
    (path : string)
    (file_feature_descriptions : gmap key string)
    (file_primitive_templates : gmap key template) :
  path <> "" ->
  parse_json_metadata path
    = Ok (file_feature_descriptions, file_primitive_templates) ->
  exists fd pt,
    merged_mappings feature_descriptions primitive_templates (Some path)
      = Ok (fd, pt)
    /\ (forall feature,
          describe_feature feature feature_descriptions primitive_templates
            (Some path)
          = generate_description fd pt feature ≫= sentence)
    /\ (forall m k v v',
          feature_descriptions = Some m -> m !! k = Some v ->
          file_feature_descriptions !! k = Some v' -> fd !! k = Some v)
    /\ (forall m k t t',
          primitive_templates = Some m -> m !! k = Some t ->
          file_primitive_templates !! k = Some t' -> pt !! k = Some t)
    /\ (forall k, or_empty feature_descriptions !! k = None ->
                  fd !! k = file_feature_descriptions !! k)
    /\ (forall k, or_empty primitive_templates !! k = None ->
                  pt !! k = file_primitive_templates !! k).
Proof.
  intros Hpath Hparse.
  exists (dict_merge file_feature_descriptions (or_empty feature_descriptions)),
         (dict_merge file_primitive_templates (or_empty primitive_templates)).
  assert (merged_mappings feature_descriptions primitive_templates (Some path)
          = Ok (dict_merge file_feature_descriptions (or_empty feature_descriptions),
                dict_merge file_primitive_templates (or_empty primitive_templates)))
    as Hmerged.
  { unfold merged_mappings. rewrite path_given by done. by rewrite Hparse. }
  split; [done|]. split; [|split; [|split; [|split]]].
  - intros feature. unfold describe_feature. by rewrite Hmerged.
  - intros m k v v' -> Hk _. apply dict_merge_over. by rewrite or_empty_Some.
  - intros m k t t' -> Hk _. apply dict_merge_over. by rewrite or_empty_Some.
  - intros k Hk. by apply dict_merge_base.
  - intros k Hk. by apply dict_merge_base.
Qed.

Lemma merged_mappings_caller_wins_witness :
  exists fd pt,
    merged_mappings
      (Some {[ by_name "customers: age" := "the AGE" ]}) None (Some "meta.json")
      = Ok (fd, pt)
    /\ fd !! by_name "customers: age" = Some "the AGE"
    /\ fd !! by_name "customers: id" = Some "the customer".
Proof.
  destruct (merged_mappings_caller_wins
              (Some {[ by_name "customers: age" := "the AGE" ]}) None
              "meta.json"
              (Json.as_dict {[ "customers: age" := "the age in the file";
                               "customers: id" := "the customer" ]}) ∅)
    as (fd & pt & Hm & _ & Hfd & _ & Hfile & _); [done | reflexivity |].
  exists fd, pt. split; [exact Hm|]. split.
  - by apply (Hfd _ _ "the AGE" "the age in the file" eq_refl).
  - rewrite Hfile; reflexivity.
Defined.

(** C8: when the metadata path is given and the file cannot be opened, or
    is opened and cannot be decoded, [parse_json_metadata] raises that
    error and [describe_feature] raises the very same one: there is no
    result built from empty or caller-only mappings. *)
Theorem describe_feature_metadata_error `{FeatureModel} `{FileSystem}
    (feature : Feature)
    (feature_descriptions : option (gmap key string))
    (primitive_templates : option (gmap key template))
    (path : string) (e : exn) :
  path <> "" ->
  (open_ path = Raise e
   \/ exists f, open_ path = Ok f /\ json_load f = Raise e) ->
  parse_json_metadata path = Raise e
  /\ describe_feature feature feature_descriptions primitive_templates
       (Some path) = Raise e.
Proof.
  intros Hpath Hfail.
  assert (parse_json_metadata path = Raise e) as Hparse.
  { unfold parse_json_metadata.
    destruct Hfail as [-> | (f & -> & Hload)]; [done|]. cbn. by rewrite Hload. }
  split; [done|].
  unfold describe_feature, merged_mappings.
  rewrite path_given by done. by rewrite Hparse.
Qed.

Lemma describe_feature_metadata_error_witness :
  describe_feature Sample.age None None (Some "missing.json") = Raise (OSError 2)
  /\ describe_feature Sample.age None None (Some "broken.json")
     = Raise (JSONDecodeError "Expecting value").
Proof.
  split.
  - apply (describe_feature_metadata_error Sample.age None None
             "missing.json" (OSError 2)); [done | by left].
  - apply (describe_feature_metadata_error Sample.age None None
             "broken.json" (JSONDecodeError "Expecting value")); [done|].
    right. by exists "broken".
Defined.

(** ** The general case: four parts, joined *)

Lemma last_relationship_snoc (f : Feature)
    (hops : list (bool * Relationship.t)) (fwd : bool) (rel : Relationship.t) :
  relationship_path f = hops ++ [(fwd, rel)] -> last_relationship f = Ok rel.
Proof.
  intros Hpath. unfold last_relationship, last_item.
  by rewrite Hpath, last_snoc.
Qed.

Lemma entity_description_of_aggregation (f : Feature)
    (hops : list (bool * Relationship.t)) (fwd : bool) (rel : Relationship.t) :
  isinstance f AggregationFeature = true ->
  relationship_path f = hops ++ [(fwd, rel)] ->
  entity_description_of f =
    Ok (match use_previous f with
        | Some window =>
            "of the previous " +:+ Str.lower (Timedelta.get_name window)
            +:+ " of " +:+ quoted (Entity.id (Relationship.child_entity rel))
        | None =>
            "of all instances of "
            +:+ quoted (Entity.id (Relationship.child_entity rel))
        end).
Proof.
  intros Hagg Hpath. unfold entity_description_of.
  rewrite Hagg, (last_relationship_snoc f hops fwd rel Hpath). cbn.
  destruct (use_previous f) as [window|]; [|done].
  by rewrite <- !append_assoc.
Qed.

(** C5: the entity clause of an aggregation feature is
    ["of the previous <window, lowercased> of "] and the child entity id in
    double quotes with a use-previous window, and ["of all instances of "]
    and the child entity id in double quotes without, the child entity being
    that of the last hop of the relationship path; for a feature of any
    other class it is empty. The feature is the one the clause is computed
    for: for a sliced output, the feature it wraps. *)
Theorem entity_description_of_spec (f : Feature) :
  (isinstance f AggregationFeature = true ->
   forall hops fwd rel,
     relationship_path f = hops ++ [(fwd, rel)] ->
     entity_description_of f =
       Ok (match use_previous f with
           | Some window =>
               "of the previous " +:+ Str.lower (Timedelta.get_name window)
               +:+ " of "
               +:+ in_double_quotes (Entity.id (Relationship.child_entity rel))
           | None =>
               "of all instances of "
               +:+ in_double_quotes (Entity.id (Relationship.child_entity rel))
           end))
  /\ (isinstance f AggregationFeature = false ->
      entity_description_of f = Ok "").
Proof.
  split.
  - intros Hagg hops fwd rel Hpath.
    rewrite <- quoted_in_double_quotes.
    by apply (entity_description_of_aggregation f hops fwd).
  - intros Hagg. unfold entity_description_of. by rewrite Hagg.
Qed.

Lemma entity_description_of_spec_witness :
  entity_description_of
    (Sample.mean_amount None (Some (Timedelta.mk "3 Days")))
  = Ok ("of the previous 3 days of "
        +:+ String "034"%char ("transactions" +:+ String "034"%char EmptyString))
  /\ entity_description_of (Sample.mean_amount None None)
     = Ok ("of all instances of "
           +:+ String "034"%char ("transactions" +:+ String "034"%char EmptyString))
  /\ entity_description_of Sample.cum_sum_amount = Ok "".
Proof.
  split; [|split].
  - apply (proj1 (entity_description_of_spec
                    (Sample.mean_amount None (Some (Timedelta.mk "3 Days"))))
             eq_refl [] false Sample.customers_transactions eq_refl).
  - apply (proj1 (entity_description_of_spec (Sample.mean_amount None None))
             eq_refl [] false Sample.customers_transactions eq_refl).
  - apply (proj2 (entity_description_of_spec Sample.cum_sum_amount) eq_refl).
Defined.

Lemma generate_description_parts `{FeatureModel}
    (fd : gmap key string) (pt : gmap key template)
    (f f' : Feature) (groupby_description : option pyval)
    (input_descriptions : list pyval) (p e w g : string) :
  overridden fd f = false ->
  isinstance f IdentityFeature = false ->
  isinstance f DirectFeature = false ->
  input_descriptions_of (generate_description fd pt) f
    = Ok (groupby_description, input_descriptions) ->
  primitive_description_of pt f input_descriptions = Ok p ->
  working_feature f = Ok f' ->
  entity_description_of f' = Ok e ->
  where_of fd (generate_description fd pt) f' = Ok w ->
  groupby_of fd f' groupby_description = Ok g ->
  generate_description fd pt f = Ok (VStr (join_template [p; e; w; g])).
Proof.
  intros Ho Hid Hdirect Hin Hp Hf' He Hw Hg.
  rewrite generate_description_eq. unfold generate_description_body.
  unfold overridden in Ho. rewrite Ho, Hid, Hdirect, Hin. cbn.
  rewrite Hp. cbn. rewrite Hf'. cbn.
  rewrite Hg. cbn. rewrite He. cbn. by rewrite Hw.
Qed.

(** C4: for a feature that has no override and is neither an identity nor a
    direct feature, the returned phrase is the primitive fragment, the
    entity clause, the where clause and the group-by clause, in that order,
    the empty ones left out and the others joined by single spaces: two
    neighbours are separated by exactly one space, and an empty part leaves
    no space behind. *)
Theorem generate_description_general `{FeatureModel}
    (fd : gmap key string) (pt : gmap key template)
    (f f' : Feature) (groupby_description : option pyval)
    (input_descriptions : list pyval) (p e w g : string) :
  overridden fd f = false ->
  isinstance f IdentityFeature = false ->
  isinstance f DirectFeature = false ->
  input_descriptions_of (generate_description fd pt) f
    = Ok (groupby_description, input_descriptions) ->
  primitive_description_of pt f input_descriptions = Ok p ->
  working_feature f = Ok f' ->
  entity_description_of f' = Ok e ->
  where_of fd (generate_description fd pt) f' = Ok w ->
  groupby_of fd f' groupby_description = Ok g ->
  generate_description fd pt f
    = Ok (VStr (Str.join " " (filter (fun x => x <> "") [p; e; w; g])))
  /\ Str.join " " (filter (fun x => x <> "") [p; e; w; g])
     = glue p (glue e (glue w g)).
Proof.
  intros Ho Hid Hdirect Hin Hp Hf' He Hw Hg. split.
  - by eapply generate_description_parts.
  - apply join_template_four.
Qed.

Lemma generate_description_general_witness :
  generate_description ∅ ∅ (Sample.mean_amount None None)
  = Ok (VStr (Str.join " "
          (filter (fun x => x <> "")
             [ "the average of the " +:+ quoted "amount";
               "of all instances of " +:+ quoted "transactions";
               "";
               "for each " +:+ quoted "id" +:+ " in " +:+ quoted "customers" ]))).
Proof.
  apply (generate_description_general ∅ ∅
           (Sample.mean_amount None None) (Sample.mean_amount None None)
           None [VStr ("the " +:+ quoted "amount")]); reflexivity.
Defined.

(** The converse: whatever the general case returns is built that way. *)
Lemma generate_description_general_inv `{FeatureModel}
    (fd : gmap key string) (pt : gmap key template) (f : Feature) (r : pyval) :
  overridden fd f = false ->
  isinstance f IdentityFeature = false ->
  isinstance f DirectFeature = false ->
  generate_description fd pt f = Ok r ->
  exists f' groupby_description input_descriptions p e w g,
    input_descriptions_of (generate_description fd pt) f
      = Ok (groupby_description, input_descriptions)
    /\ primitive_description_of pt f input_descriptions = Ok p
    /\ working_feature f = Ok f'
    /\ entity_description_of f' = Ok e
    /\ where_of fd (generate_description fd pt) f' = Ok w
    /\ groupby_of fd f' groupby_description = Ok g
    /\ r = VStr (glue p (glue e (glue w g))).
Proof.
  intros Ho Hid Hdirect. rewrite generate_description_eq.
  unfold generate_description_body. unfold overridden in Ho.
  rewrite Ho, Hid, Hdirect. intros Hr.
  apply bind_Ok in Hr as ([gd ins] & Hin & Hr).
  apply bind_Ok in Hr as (p & Hp & Hr).
  apply bind_Ok in Hr as (f' & Hf' & Hr).
  apply bind_Ok in Hr as (g & Hg & Hr).
  apply bind_Ok in Hr as (e & He & Hr).
  apply bind_Ok in Hr as (w & Hw & Hr).
  injection Hr as <-. rewrite join_template_four.
  by exists f', gd, ins, p, e, w, g.
Qed.

(** ** Direct features *)

Lemma concat_empty_snoc (xs : list string) (x : string) :
  String.concat "" (xs ++ [x]) = String.concat "" xs +:+ x.
Proof.
  induction xs as [|y xs IH]; [reflexivity|].
  change ((y :: xs) ++ [x]) with (y :: (xs ++ [x])).
  destruct xs as [|z xs].
  - reflexivity.
  - change (String.concat "" (y :: (z :: xs) ++ [x]))
      with (y +:+ "" +:+ String.concat "" ((z :: xs) ++ [x])).
    rewrite IH.
    change (String.concat "" (y :: z :: xs))
      with (y +:+ "" +:+ String.concat "" (z :: xs)).
    by rewrite <- !append_assoc.
Qed.

Lemma hop_fragments_cons (rel : Relationship.t) (rels : list Relationship.t) :
  hop_fragments (rel :: rels) = hop_fragments rels +:+ hop_fragment rel.
Proof. unfold hop_fragments. cbn. apply concat_empty_snoc. Qed.

Lemma direct_loop_chain (ds : list Feature) :
  forall cur b rels dd,
    direct_chain cur ds b ->
    Forall2 (fun d rel => last_relationship d = Ok rel) ds rels ->
    direct_loop cur dd = Ok (b, " of" +:+ hop_fragments rels +:+ dd).
Proof.
  induction ds as [|d ds IH]; intros cur b rels dd Hchain Hrels.
  - inversion Hchain as [? ? rest Hbf Hb|]; subst.
    apply Forall2_nil_inv_l in Hrels as ->.
    rewrite direct_loop_unfold, Hbf, Hb. reflexivity.
  - inversion Hchain as [|? ? rest ? ? Hbf Hd Hchain']; subst.
    apply Forall2_cons_inv_l in Hrels as (rel & rels' & Hrel & Hrels & ->).
    rewrite hop_fragments_cons.
    rewrite direct_loop_unfold, Hbf, Hd, Hrel.
    change (direct_loop d (hop_fragment rel +:+ dd)
            = Ok (b, " of" +:+ (hop_fragments rels' +:+ hop_fragment rel) +:+ dd)).
    rewrite (IH d b rels' _ Hchain' Hrels).
    by rewrite <- !append_assoc.
Qed.

Lemma direct_chain_not_direct (f b : Feature) (ds : list Feature) :
  direct_chain f ds b -> isinstance b DirectFeature = false.
Proof. induction 1; done. Qed.

Lemma hop_fragments_quoted (rels : list Relationship.t) :
  hop_fragments rels = quoted_hops rels.
Proof. reflexivity. Qed.

(** C6: for a direct feature [f] whose chain of first base features runs
    through the direct features [ds] down to the non-direct feature [b],
    the unwinder returns [b] and the phrase [" of"], then the fragment of
    each inner direct feature (innermost first), then [" the instance of "],
    the parent entity id of [f]'s last hop in double quotes,
    [" associated with this instance of "] and the entity id of [f] in
    double quotes. For a single hop the phrase is [" of the instance of "],
    the quoted parent, [" associated with this instance of "], the quoted
    entity; for a chain of two the inner feature's fragment
    [" the instance of "], its quoted parent, [" associated with"] comes
    before the outer one. In the direct branch - [f] has no override of its
    own - the description of [f] is the description of [b], a string,
    followed by the phrase. *)
Theorem get_direct_description_spec `{FeatureModel}
    (fd : gmap key string) (pt : gmap key template)
    (f b : Feature) (ds : list Feature)
    (rel : Relationship.t) (rels : list Relationship.t) :
  direct_chain f ds b ->
  last_relationship f = Ok rel ->
  Forall2 (fun d r => last_relationship d = Ok r) ds rels ->
  let this_hop :=
    " the instance of "
    +:+ in_double_quotes (Entity.id (Relationship.parent_entity rel))
    +:+ " associated with this instance of "
    +:+ in_double_quotes (entity_id f) in
  let phrase := " of" +:+ quoted_hops rels +:+ this_hop in
  get_direct_description f = Ok (b, phrase)
  /\ isinstance b DirectFeature = false
  /\ (ds = [] ->
      phrase =
        " of the instance of "
        +:+ in_double_quotes (Entity.id (Relationship.parent_entity rel))
        +:+ " associated with this instance of "
        +:+ in_double_quotes (entity_id f))
  /\ (forall d1 r1, ds = [d1] -> rels = [r1] ->
      phrase =
        " of the instance of "
        +:+ in_double_quotes (Entity.id (Relationship.parent_entity r1))
        +:+ " associated with the instance of "
        +:+ in_double_quotes (Entity.id (Relationship.parent_entity rel))
        +:+ " associated with this instance of "
        +:+ in_double_quotes (entity_id f))
  /\ (isinstance f DirectFeature = true -> overridden fd f = false ->
      forall d, generate_description fd pt b = Ok (VStr d) ->
                generate_description fd pt f = Ok (VStr (d +:+ phrase))).
Proof.
  intros Hchain Hrel Hrels this_hop phrase.
  assert (get_direct_description f = Ok (b, phrase)) as Hget.
  { unfold get_direct_description. rewrite Hrel. cbn.
    rewrite (direct_loop_chain ds f b rels _ Hchain Hrels).
    unfold phrase, this_hop.
    by rewrite hop_fragments_quoted, !quoted_in_double_quotes. }
  split; [done|]. split; [by eapply direct_chain_not_direct|].
  split; [|split].
  - intros ->. apply Forall2_nil_inv_l in Hrels as ->. reflexivity.
  - intros d1 r1 -> ->. unfold phrase, this_hop, quoted_hops, quoted_hop.
    cbn [fmap list_fmap rev app String.concat].
    rewrite <- !append_assoc. reflexivity.
  - intros Hdirect Ho d Hb. rewrite generate_description_eq.
    unfold generate_description_body. unfold overridden in Ho.
    assert (isinstance f IdentityFeature = false) as ->.
    { unfold isinstance in *. apply bool_decide_eq_true_1 in Hdirect.
      apply bool_decide_eq_false_2. by rewrite Hdirect. }
    rewrite Ho, Hdirect, Hget. cbn. by rewrite Hb.
Qed.

Lemma get_direct_description_spec_witness :
  get_direct_description Sample.transaction_age
  = Ok (Sample.age,
        " of the instance of "
        +:+ String "034"%char ("customers" +:+ String "034"%char EmptyString)
        +:+ " associated with the instance of "
        +:+ String "034"%char ("sessions" +:+ String "034"%char EmptyString)
        +:+ " associated with this instance of "
        +:+ String "034"%char ("transactions" +:+ String "034"%char EmptyString))
  /\ generate_description ∅ ∅ Sample.transaction_age
     = Ok (VStr
             ("the " +:+ String "034"%char ("age" +:+ String "034"%char EmptyString)
              +:+ " of the instance of "
              +:+ String "034"%char ("customers" +:+ String "034"%char EmptyString)
              +:+ " associated with the instance of "
              +:+ String "034"%char ("sessions" +:+ String "034"%char EmptyString)
              +:+ " associated with this instance of "
              +:+ String "034"%char ("transactions" +:+ String "034"%char EmptyString))).
Proof.
  destruct (get_direct_description_spec ∅ ∅
              Sample.transaction_age Sample.age [Sample.session_age]
              Sample.sessions_transactions [Sample.customers_sessions])
    as (Hget & _ & _ & _ & Hgen).
  - eapply direct_chain_step; [reflexivity | reflexivity |].
    eapply direct_chain_end; reflexivity.
  - reflexivity.
  - repeat constructor.
  - split; [exact Hget|].
    apply (Hgen eq_refl eq_refl ("the " +:+ in_double_quotes "age")). reflexivity.
Defined.

(** ** The group-by name *)

Section groupby.
Context `{FeatureModel}.
Variable fd : gmap key string.

(** Without an override the phrase is ["<index>" in "<entity id>"]. *)
Lemma get_aggregation_groupby_default (f : Feature) (variable : Var.t) :
  Entity.getitem (entity f) (Entity.index (entity f)) = Ok variable ->
  overridden fd (new_IdentityFeature variable) = false ->
  get_aggregation_groupby f fd
  = Ok (quoted (Entity.index (entity f)) +:+ " in "
        +:+ quoted (Entity.id (entity f))).
Proof.
  intros Hvar Ho. unfold get_aggregation_groupby. rewrite Hvar. cbn.
  unfold overridden in Ho. by rewrite Ho.
Qed.

(** With an override that is selected as a string, the phrase is that
    string without a leading ["the "]. *)
Lemma get_aggregation_groupby_override (f : Feature) (variable : Var.t)
    (s : string) :
  Entity.getitem (entity f) (Entity.index (entity f)) = Ok variable ->
  overridden fd (new_IdentityFeature variable) = true ->
  override_of fd (new_IdentityFeature variable) = VStr s ->
  get_aggregation_groupby f fd = Ok (strip_the s).
Proof.
  intros Hvar Ho Hs. unfold get_aggregation_groupby. rewrite Hvar. cbn.
  unfold overridden in Ho. rewrite Ho.
  unfold override_of in Hs. rewrite Hs. unfold strip_the.
  by destruct (Str.startswith s "the ").
Qed.

End groupby.

(** C7, the failing inputs: the aggregation [MEAN(transactions.amount)] of
    [customers], with the identity feature over the index column [id] mapped
    - as an object - to the empty string. Looked up by identity first, the
    override is the empty string; the resolver instead fails on [None] when
    the unique name is not a key, and returns the unique name's value when
    it is. *)
Lemma get_aggregation_groupby_empty_override :
  Entity.getitem (entity (Sample.mean_amount None None))
    (Entity.index (entity (Sample.mean_amount None None)))
    = Ok (Var.mk "id" "id" "customers")
  /\ obj (new_IdentityFeature (Var.mk "id" "id" "customers"))
     = obj Sample.customer_id
  /\ unique_name (new_IdentityFeature (Var.mk "id" "id" "customers"))
     = unique_name Sample.customer_id
  /\ get_aggregation_groupby (Sample.mean_amount None None)
       Sample.id_object_empty
     = Raise AttributeError
  /\ get_aggregation_groupby (Sample.mean_amount None None)
       Sample.id_object_empty_name_given
     = Ok "customer".
Proof. vm_compute. done. Qed.

(** ** The store: what a call leaves behind *)

Section frame.
Import Heap.

Lemma run_bind {A B} (m : M A) (k : A -> M B) (σ : store) :
  run (m ≫= k) σ =
  match run m σ with
  | (Ok a, σ') => run (k a) σ'
  | (Raise e, σ') => (Raise e, σ')
  end.
Proof. reflexivity. Qed.

Lemma objects_unchanged_refl (σ : store) : objects_unchanged σ σ.
Proof. by intros l o. Qed.

Lemma objects_unchanged_insert (σ0 σ : store) (l : loc) (o : object) :
  σ0 !! l = None ->
  objects_unchanged σ0 σ -> objects_unchanged σ0 (<[l := o]> σ).
Proof.
  intros Hl Hσ l' o' Hl'. rewrite lookup_insert_ne; [by apply Hσ|].
  intros ->. congruence.
Qed.

Lemma objects_unchanged_fresh (σ0 σ : store) :
  objects_unchanged σ0 σ -> σ0 !! fresh (dom σ) = None.
Proof.
  intros Hσ. destruct (σ0 !! fresh (dom σ)) as [o|] eqn:Hl; [|done].
  apply Hσ, elem_of_dom_2 in Hl. by apply is_fresh in Hl.
Qed.

(** *** What keeps the objects of a store *)

Lemma keeps_ret {A} (σ0 : store) (a : A) : keeps σ0 (mret a).
Proof. by intros σ Hσ. Qed.

Lemma keeps_lift {A} (σ0 : store) (r : res A) : keeps σ0 (lift r).
Proof. by intros σ Hσ. Qed.

Lemma keeps_bind {A B} (σ0 : store) (m : M A) (k : A -> M B) :
  keeps σ0 m -> (forall a, keeps σ0 (k a)) -> keeps σ0 (m ≫= k).
Proof.
  intros Hm Hk σ Hσ. rewrite run_bind. specialize (Hm σ Hσ).
  destruct (run m σ) as [[a|e] σ']; [by apply Hk | done].
Qed.

(** A new object has an address that no object of [σ0] has. *)
Lemma keeps_new_bind {B} (σ0 : store) (o : object) (k : loc -> M B) :
  (forall l, σ0 !! l = None -> keeps σ0 (k l)) -> keeps σ0 (new o ≫= k).
Proof.
  intros Hk σ Hσ. rewrite run_bind.
  change (run (new o) σ) with (Ok (fresh (dom σ)), <[fresh (dom σ) := o]> σ).
  pose proof (objects_unchanged_fresh σ0 σ Hσ) as Hl.
  apply Hk; [done|]. by apply objects_unchanged_insert.
Qed.

Lemma keeps_new (σ0 : store) (o : object) : keeps σ0 (new o).
Proof.
  intros σ Hσ. apply objects_unchanged_insert; [|done].
  by apply objects_unchanged_fresh.
Qed.

(** An update keeps the objects of [σ0] when it is not one of them that is
    updated. *)
Lemma keeps_write (σ0 : store) (l : loc) (o : object) :
  σ0 !! l = None -> keeps σ0 (write l o).
Proof. intros Hl σ Hσ. by apply objects_unchanged_insert. Qed.

Lemma keeps_attr {A} (σ0 : store) (feature : loc) (field : node -> A) :
  keeps σ0 (attr feature field).
Proof. intros σ Hσ. cbn. by destruct (σ !! feature) as [[]|]. Qed.

Lemma keeps_features (σ0 : store) (l : loc) : keeps σ0 (features l).
Proof. intros σ Hσ. cbn. by destruct (σ !! l) as [[]|]. Qed.

Lemma keeps_descriptions (σ0 : store) (l : loc) : keeps σ0 (descriptions l).
Proof. intros σ Hσ. cbn. by destruct (σ !! l) as [[]|]. Qed.

Lemma keeps_templates (σ0 : store) (l : loc) : keeps σ0 (templates l).
Proof. intros σ Hσ. cbn. by destruct (σ !! l) as [[]|]. Qed.

Lemma keeps_strings (σ0 : store) (l : loc) : keeps σ0 (strings l).
Proof. intros σ Hσ. cbn. by destruct (σ !! l) as [[]|]. Qed.

Ltac keeps_step :=
  first
    [ apply keeps_ret | apply keeps_lift | apply keeps_attr
    | apply keeps_features | apply keeps_descriptions
    | apply keeps_templates | apply keeps_strings
    | apply unique_name_keeps | apply get_name_keeps
    | apply get_description_keeps | apply new_IdentityFeature_keeps
    | apply keeps_new
    | apply keeps_write; assumption
    | match goal with H : _ |- keeps _ _ => apply H; assumption end
    | match goal with H : _ |- keeps _ _ => apply H end
    | match goal with |- keeps _ (if ?b then _ else _) => destruct b end
    | match goal with |- keeps _ (match ?x with _ => _ end) => destruct x end
    | apply keeps_new_bind; intros ? ?
    | apply keeps_bind; [|intros ?] ].

Ltac keeps_all := repeat keeps_step.

Lemma keeps_append (σ0 : store) (l : loc) (v : pyval) :
  σ0 !! l = None -> keeps σ0 (append l v).
Proof. intros Hl. unfold append. keeps_all. Qed.

Lemma keeps_pop (σ0 : store) (l : loc) :
  σ0 !! l = None -> keeps σ0 (Heap.pop l).
Proof. intros Hl. unfold Heap.pop. keeps_all. Qed.

Lemma keeps_has (σ0 : store) (d : loc) (k : key) : keeps σ0 (has d k).
Proof. unfold has. keeps_all. Qed.

Lemma keeps_lookup (σ0 : store) (d : loc) (k : key) : keeps σ0 (lookup d k).
Proof. unfold lookup. keeps_all. Qed.

Lemma keeps_has_template_either (σ0 : store) (d : loc) (k1 k2 : key) :
  keeps σ0 (has_template_either d k1 k2).
Proof. unfold has_template_either. keeps_all. Qed.

Lemma keeps_lookup_template_either (σ0 : store) (d : loc) (k1 k2 : key) :
  keeps σ0 (lookup_template_either d k1 k2).
Proof. unfold lookup_template_either. keeps_all. Qed.

Section library.
Context `{L : Library} `{!ReadOnly L} `{FileSystem}.
Variable default_feature_descriptions : loc.
Variable σ0 : store.

Lemma keeps_isinstance (feature : loc) (c : FeatureClass) :
  keeps σ0 (isinstance feature c).
Proof. apply keeps_attr. Qed.

Lemma keeps_last_relationship (feature : loc) :
  keeps σ0 (last_relationship feature).
Proof. unfold last_relationship. keeps_all. Qed.

Lemma keeps_first_feature (xs : loc) : keeps σ0 (first_feature xs).
Proof. unfold first_feature. keeps_all. Qed.

Lemma keeps_has_override (d feature : loc) :
  keeps σ0 (has_override d feature).
Proof.
  unfold has_override.
  apply keeps_bind; [apply keeps_attr|intros k].
  apply keeps_bind; [apply keeps_has|intros b].
  destruct b; [apply keeps_ret|].
  apply keeps_bind; [apply unique_name_keeps|intros u]. apply keeps_has.
Qed.

Lemma keeps_get_override (d feature : loc) :
  keeps σ0 (get_override d feature).
Proof.
  unfold get_override.
  apply keeps_bind; [apply keeps_attr|intros k].
  apply keeps_bind; [apply keeps_lookup|intros v].
  destruct (truthy v); [apply keeps_ret|].
  apply keeps_bind; [apply unique_name_keeps|intros u]. apply keeps_lookup.
Qed.

Lemma keeps_direct_loop (steps : nat) :
  forall columns direct_description,
    keeps σ0 (direct_loop steps columns direct_description).
Proof.
  induction steps as [|steps IH]; intros columns direct_description;
    cbn [direct_loop]; [apply keeps_lift|].
  apply keeps_bind; [apply keeps_first_feature|intros first].
  apply keeps_bind; [apply keeps_isinstance|intros [|]].
  - apply keeps_bind; [apply keeps_first_feature|intros base_feat].
    apply keeps_bind; [apply keeps_last_relationship|intros rel].
    apply keeps_bind; [apply keeps_attr|intros columns']. apply IH.
  - apply keeps_bind; [apply keeps_first_feature|intros base].
    apply keeps_ret.
Qed.

Lemma keeps_get_direct_description (steps : nat) (feature : loc) :
  keeps σ0 (get_direct_description steps feature).
Proof.
  unfold get_direct_description.
  apply keeps_bind; [apply keeps_last_relationship|intros rel].
  apply keeps_bind; [apply keeps_attr|intros eid].
  apply keeps_bind; [apply keeps_attr|intros columns].
  apply keeps_direct_loop.
Qed.

Lemma keeps_get_aggregation_groupby (feature : loc) (arg : option loc) :
  keeps σ0 (get_aggregation_groupby default_feature_descriptions feature arg).
Proof.
  unfold get_aggregation_groupby.
  apply keeps_bind; [apply keeps_attr|intros e].
  apply keeps_bind; [apply keeps_attr|intros e'].
  apply keeps_bind; [apply keeps_lift|intros variable].
  apply keeps_bind; [apply new_IdentityFeature_keeps|intros groupby_feature].
  apply keeps_bind; [apply keeps_has_override|intros [|]].
  - apply keeps_bind; [apply keeps_get_override|intros [|description]].
    + apply keeps_lift.
    + destruct (Str.startswith description "the "); apply keeps_ret.
  - apply keeps_bind; [apply keeps_attr|intros e'']. apply keeps_ret.
Qed.

Section activation.
Variable feature_descriptions primitive_templates : loc.
Variable rec : loc -> M pyval.
Hypothesis keeps_rec : forall feature, keeps σ0 (rec feature).

Lemma keeps_describe_inputs (input_columns input_descriptions : loc)
    (steps : nat) :
  σ0 !! input_descriptions = None ->
  forall i, keeps σ0 (describe_inputs rec steps i input_columns
                        input_descriptions).
Proof.
  intros Hnew.
  induction steps as [|steps IH]; intros i; cbn [describe_inputs];
    [apply keeps_lift|].
  apply keeps_bind; [apply keeps_features|intros l].
  destruct (l !! i) as [input_col|]; [|apply keeps_ret].
  apply keeps_bind; [apply keeps_rec|intros col_description].
  apply keeps_bind; [by apply keeps_append|intros _]. apply IH.
Qed.

Lemma keeps_get_base_feature (feature : loc) :
  keeps σ0 (get_base_feature feature).
Proof.
  unfold get_base_feature.
  apply keeps_bind; [apply keeps_attr|intros wrapped]. apply keeps_lift.
Qed.

(** The list of line 57 is a new object: appending to it and popping from
    it update none of the objects that were there. *)
Lemma keeps_input_descriptions_of (steps : nat) (feature : loc) :
  keeps σ0 (input_descriptions_of rec steps feature).
Proof.
  unfold input_descriptions_of.
  apply keeps_new_bind. intros input_descriptions Hnew.
  apply keeps_bind; [apply keeps_attr|intros input_columns].
  apply keeps_bind; [apply keeps_isinstance|intros slice].
  apply keeps_bind.
  { destruct slice; [|apply keeps_ret].
    apply keeps_bind; [apply keeps_get_base_feature|intros f].
    apply keeps_attr. }
  intros input_columns'.
  apply keeps_bind; [by apply keeps_describe_inputs|intros _].
  apply keeps_bind; [apply keeps_isinstance|intros [|]].
  - apply keeps_bind; [by apply keeps_pop|intros last_description].
    apply keeps_ret.
  - apply keeps_ret.
Qed.

Lemma keeps_primitive_description_of (feature input_descriptions : loc) :
  keeps σ0 (primitive_description_of primitive_templates feature
              input_descriptions).
Proof.
  unfold primitive_description_of.
  apply keeps_bind; [apply keeps_isinstance|intros slice].
  apply keeps_bind.
  { destruct slice; [|apply keeps_ret].
    apply keeps_bind; [apply keeps_attr|intros i]. apply keeps_ret. }
  intros slice_num.
  apply keeps_bind; [apply keeps_attr|intros prim].
  apply keeps_bind; [apply keeps_has_template_either|intros found].
  apply keeps_bind.
  { destruct found; [apply keeps_lookup_template_either|apply keeps_ret]. }
  intros template_override.
  apply keeps_bind; [apply keeps_attr|intros prim'].
  apply get_description_keeps.
Qed.

Lemma keeps_working_feature (feature : loc) :
  keeps σ0 (working_feature feature).
Proof.
  unfold working_feature.
  apply keeps_bind; [apply keeps_isinstance|intros [|]];
    [apply keeps_get_base_feature|apply keeps_ret].
Qed.

Lemma keeps_groupby_of (feature : loc) (groupby_description : option pyval) :
  keeps σ0 (groupby_of default_feature_descriptions feature_descriptions
              feature groupby_description).
Proof.
  unfold groupby_of.
  apply keeps_bind; [apply keeps_isinstance|intros [|]].
  - apply keeps_bind; [apply keeps_get_aggregation_groupby|intros g].
    apply keeps_ret.
  - apply keeps_bind; [apply keeps_isinstance|intros [|]]; [|apply keeps_ret].
    destruct groupby_description; [apply keeps_ret|apply keeps_lift].
Qed.

Lemma keeps_entity_description_of (feature : loc) :
  keeps σ0 (entity_description_of feature).
Proof.
  unfold entity_description_of.
  apply keeps_bind; [apply keeps_isinstance|intros [|]]; [|apply keeps_ret].
  apply keeps_bind; [apply keeps_attr|intros window].
  apply keeps_bind; [apply keeps_last_relationship|intros rel].
  apply keeps_ret.
Qed.

Lemma keeps_where_of (feature : loc) :
  keeps σ0 (where_of feature_descriptions rec feature).
Proof.
  unfold where_of.
  apply keeps_bind; [apply keeps_isinstance|intros has_where].
  apply keeps_bind.
  { destruct has_where; [apply keeps_attr|apply keeps_ret]. }
  intros [w|]; [|apply keeps_ret].
  apply keeps_bind; [apply keeps_attr|intros prim].
  apply keeps_bind; [apply keeps_lift|intros where_value].
  apply keeps_bind; [apply keeps_has_override|intros found].
  apply keeps_bind; [|intros where_col; apply keeps_ret].
  destruct found; [apply keeps_get_override|].
  apply keeps_bind; [apply keeps_attr|intros columns].
  apply keeps_bind; [apply keeps_first_feature|intros b]. apply keeps_rec.
Qed.

Lemma keeps_generate_description_body (steps : nat) (feature : loc) :
  keeps σ0 (generate_description_body default_feature_descriptions
              feature_descriptions primitive_templates rec steps feature).
Proof.
  unfold generate_description_body.
  apply keeps_bind; [apply keeps_has_override|intros [|]];
    [apply keeps_get_override|].
  apply keeps_bind; [apply keeps_isinstance|intros [|]].
  { apply keeps_bind; [apply get_name_keeps|intros feature_name].
    apply keeps_ret. }
  apply keeps_bind; [apply keeps_isinstance|intros [|]].
  { apply keeps_bind; [apply keeps_get_direct_description|].
    intros [base direct_description].
    apply keeps_bind; [apply keeps_rec|intros direct_base]. apply keeps_lift. }
  apply keeps_bind; [apply keeps_input_descriptions_of|].
  intros [groupby_description input_descriptions].
  apply keeps_bind; [apply keeps_primitive_description_of|intros p].
  apply keeps_bind; [apply keeps_working_feature|intros feature'].
  apply keeps_bind; [apply keeps_groupby_of|intros g].
  apply keeps_bind; [apply keeps_entity_description_of|intros e].
  apply keeps_bind; [apply keeps_where_of|intros w].
  apply keeps_ret.
Qed.

End activation.

Lemma keeps_generate_description (feature_descriptions primitive_templates : loc)
    (steps depth : nat) :
  forall feature,
    keeps σ0 (generate_description default_feature_descriptions
                feature_descriptions primitive_templates steps depth feature).
Proof.
  induction depth as [|depth IH]; intros feature; cbn [generate_description];
    [apply keeps_lift|].
  by apply keeps_generate_description_body.
Qed.

Lemma keeps_parse_json_metadata (path : string) :
  keeps σ0 (parse_json_metadata path).
Proof.
  unfold parse_json_metadata.
  apply keeps_bind; [apply keeps_lift|intros f].
  apply keeps_bind; [apply keeps_lift|intros json_metadata].
  apply keeps_bind; [apply keeps_new|intros fd].
  apply keeps_bind; [apply keeps_new|intros pt]. apply keeps_ret.
Qed.

Lemma keeps_descriptions_or_empty (d : option loc) :
  keeps σ0 (descriptions_or_empty d).
Proof.
  destruct d as [l|]; [|apply keeps_new]. cbn [descriptions_or_empty].
  apply keeps_bind; [apply keeps_descriptions|intros m].
  destruct (bool_decide (m = ∅)); [apply keeps_new|apply keeps_ret].
Qed.

Lemma keeps_templates_or_empty (d : option loc) :
  keeps σ0 (templates_or_empty d).
Proof.
  destruct d as [l|]; [|apply keeps_new]. cbn [templates_or_empty].
  apply keeps_bind; [apply keeps_templates|intros m].
  destruct (bool_decide (m = ∅)); [apply keeps_new|apply keeps_ret].
Qed.

Lemma keeps_merged_mappings (fd pt : option loc) (metadata_file : option string) :
  keeps σ0 (merged_mappings fd pt metadata_file).
Proof.
  unfold merged_mappings.
  apply keeps_bind; [apply keeps_descriptions_or_empty|intros fd'].
  apply keeps_bind; [apply keeps_templates_or_empty|intros pt'].
  destruct metadata_file as [path|]; [|apply keeps_ret].
  destruct (String.eqb path ""); [apply keeps_ret|].
  apply keeps_bind; [apply keeps_parse_json_metadata|intros [ffd fpt]].
  apply keeps_bind; [apply keeps_descriptions|intros base].
  apply keeps_bind; [apply keeps_descriptions|intros over].
  apply keeps_bind; [apply keeps_new|intros fd''].
  apply keeps_bind; [apply keeps_templates|intros base'].
  apply keeps_bind; [apply keeps_templates|intros over'].
  apply keeps_bind; [apply keeps_new|intros pt'']. apply keeps_ret.
Qed.

Lemma keeps_describe_feature (steps depth : nat) (feature : loc)
    (fd pt : option loc) (metadata_file : option string) :
  keeps σ0 (describe_feature default_feature_descriptions steps depth feature
              fd pt metadata_file).
Proof.
  unfold describe_feature.
  apply keeps_bind; [apply keeps_merged_mappings|intros [fd' pt']].
  apply keeps_bind; [apply keeps_generate_description|intros description].
  apply keeps_lift.
Qed.

(** *** Two mappings with the same entries *)

Lemma run_bind_same {A B} (m1 m2 : M A) (k1 k2 : A -> M B) :
  keeps σ0 m2 ->
  (forall σ, objects_unchanged σ0 σ -> run m1 σ = run m2 σ) ->
  (forall a σ, objects_unchanged σ0 σ -> run (k1 a) σ = run (k2 a) σ) ->
  forall σ, objects_unchanged σ0 σ -> run (m1 ≫= k1) σ = run (m2 ≫= k2) σ.
Proof.
  intros Hkeeps Hm Hk σ Hσ. rewrite !run_bind, (Hm σ Hσ).
  specialize (Hkeeps σ Hσ).
  destruct (run m2 σ) as [[a|e] σ']; [by apply Hk | done].
Qed.

Section same_mapping.
Variable l1 l2 : loc.
Variable d : gmap key string.
Hypothesis l1_holds : σ0 !! l1 = Some (Descriptions d).
Hypothesis l2_holds : σ0 !! l2 = Some (Descriptions d).

Lemma run_has_same (k : key) (σ : store) :
  objects_unchanged σ0 σ -> run (has l1 k) σ = run (has l2 k) σ.
Proof.
  intros Hσ. cbn. by rewrite (Hσ _ _ l1_holds), (Hσ _ _ l2_holds).
Qed.

Lemma run_lookup_same (k : key) (σ : store) :
  objects_unchanged σ0 σ -> run (lookup l1 k) σ = run (lookup l2 k) σ.
Proof.
  intros Hσ. cbn. by rewrite (Hσ _ _ l1_holds), (Hσ _ _ l2_holds).
Qed.

Lemma run_has_override_same (feature : loc) (σ : store) :
  objects_unchanged σ0 σ ->
  run (has_override l1 feature) σ = run (has_override l2 feature) σ.
Proof.
  revert σ. unfold has_override.
  apply run_bind_same; [apply keeps_attr|done|intros k].
  apply run_bind_same; [apply keeps_has|apply run_has_same|intros [|]];
    [done|].
  apply run_bind_same; [apply unique_name_keeps|done|intros u].
  apply run_has_same.
Qed.

Lemma run_get_override_same (feature : loc) (σ : store) :
  objects_unchanged σ0 σ ->
  run (get_override l1 feature) σ = run (get_override l2 feature) σ.
Proof.
  revert σ. unfold get_override.
  apply run_bind_same; [apply keeps_attr|done|intros k].
  apply run_bind_same; [apply keeps_lookup|apply run_lookup_same|intros v].
  destruct (truthy v); [done|].
  apply run_bind_same; [apply unique_name_keeps|done|intros u].
  apply run_lookup_same.
Qed.

Lemma run_get_aggregation_groupby_same (feature : loc) (σ : store) :
  objects_unchanged σ0 σ ->
  run (get_aggregation_groupby l1 feature None) σ
  = run (get_aggregation_groupby l1 feature (Some l2)) σ.
Proof.
  revert σ. unfold get_aggregation_groupby. cbn [default].
  apply run_bind_same; [apply keeps_attr|done|intros e].
  apply run_bind_same; [apply keeps_attr|done|intros e'].
  apply run_bind_same; [apply keeps_lift|done|intros variable].
  apply run_bind_same; [apply new_IdentityFeature_keeps|done|].
  intros groupby_feature.
  apply run_bind_same;
    [apply keeps_has_override|apply run_has_override_same|intros [|]];
    [|done].
  apply run_bind_same;
    [apply keeps_get_override|apply run_get_override_same|done].
Qed.

End same_mapping.

End library.

End frame.

(** C9: whatever the store, the bound on the turns of a loop and the depth
    of the call stack, and whatever the library methods do as long as they
    keep the objects they find, a call of [describe_feature],
    [generate_description], [get_direct_description] or
    [get_aggregation_groupby] leaves every object that was in the store as
    it was: the feature objects of the tree with all their attributes,
    their lists of base features, the caller's override mappings and the
    default mapping of [get_aggregation_groupby]. What a call updates - the
    list of line 57 - it has built itself. So the default mapping, empty
    when the module is loaded, is empty at every call, and a call that uses
    it runs exactly as a call that is handed another empty mapping: same
    outcome, same store afterwards, the default mapping still empty. *)
Theorem calls_leave_objects_unchanged
    `{L : Heap.Library} `{!ReadOnly L} `{FileSystem}
    (default_feature_descriptions : Heap.loc) (steps depth : nat)
    (σ : Heap.store) (feature : Heap.loc) :
  (forall fd pt metadata_file,
      objects_unchanged σ
        (Heap.run (Heap.describe_feature default_feature_descriptions
                     steps depth feature fd pt metadata_file) σ).2)
  /\ (forall fd pt,
        objects_unchanged σ
          (Heap.run (Heap.generate_description default_feature_descriptions
                       fd pt steps depth feature) σ).2)
  /\ objects_unchanged σ
       (Heap.run (Heap.get_direct_description steps feature) σ).2
  /\ (forall arg,
        objects_unchanged σ
          (Heap.run (Heap.get_aggregation_groupby default_feature_descriptions
                       feature arg) σ).2)
  /\ (forall empty_mapping,
        σ !! default_feature_descriptions = Some (Heap.Descriptions ∅) ->
        σ !! empty_mapping = Some (Heap.Descriptions ∅) ->
        Heap.run (Heap.get_aggregation_groupby default_feature_descriptions
                    feature None) σ
        = Heap.run (Heap.get_aggregation_groupby default_feature_descriptions
                      feature (Some empty_mapping)) σ
        /\ (Heap.run (Heap.get_aggregation_groupby default_feature_descriptions
                       feature None) σ).2 !! default_feature_descriptions
           = Some (Heap.Descriptions ∅)).
Proof.
  pose proof (objects_unchanged_refl σ) as Hσ.
  split; [|split; [|split; [|split]]].
  - intros fd pt metadata_file. by apply keeps_describe_feature.
  - intros fd pt. by apply keeps_generate_description.
  - by apply keeps_get_direct_description.
  - intros arg. by apply keeps_get_aggregation_groupby.
  - intros empty_mapping Hdefault Hempty. split.
    + by apply (run_get_aggregation_groupby_same σ _ _ ∅).
    + by apply (keeps_get_aggregation_groupby default_feature_descriptions
                  σ feature None σ Hσ).
Qed.

Lemma library_read_only : ReadOnly Sample.library.
Proof.
  split.
  - intros σ0 feature. apply keeps_attr.
  - intros σ0 feature. apply keeps_attr.
  - intros σ0 prim input_descriptions slice_num template_override.
    apply keeps_bind; [apply keeps_strings|intros inputs]. apply keeps_lift.
  - intros σ0 variable.
    apply keeps_bind; [apply keeps_new|intros columns]. apply keeps_new.
Qed.

Lemma calls_leave_objects_unchanged_witness :
  (Heap.run (Heap.describe_feature 1%positive 5 5 7%positive (Some 2%positive)
               (Some 3%positive) None) Sample.store).1
  = describe_feature (Sample.mean_amount None None)
      (Some Sample.caller_descriptions) None None
  /\ objects_unchanged Sample.store
       (Heap.run (Heap.describe_feature 1%positive 5 5 7%positive
                    (Some 2%positive) (Some 3%positive) None) Sample.store).2
  /\ (Heap.run (Heap.generate_description 1%positive 2%positive 3%positive
                  5 5 14%positive) Sample.store).1
     = generate_description Sample.caller_descriptions ∅ Sample.transaction_age
  /\ objects_unchanged Sample.store
       (Heap.run (Heap.generate_description 1%positive 2%positive 3%positive
                    5 5 14%positive) Sample.store).2
  /\ Heap.run (Heap.get_aggregation_groupby 1%positive 7%positive None)
       Sample.store
     = Heap.run (Heap.get_aggregation_groupby 1%positive 7%positive
                   (Some 8%positive)) Sample.store
  /\ (Heap.run (Heap.get_aggregation_groupby 1%positive 7%positive None)
        Sample.store).2 !! 1%positive = Some (Heap.Descriptions ∅).
Proof.
  destruct (@calls_leave_objects_unchanged Sample.library library_read_only
              Sample.files 1%positive 5 5 Sample.store 7%positive)
    as (Hdescribe & _ & _ & _ & Hdefault).
  destruct (@calls_leave_objects_unchanged Sample.library library_read_only
              Sample.files 1%positive 5 5 Sample.store 14%positive)
    as (_ & Hgenerate & _ & _ & _).
  split; [vm_compute; reflexivity|].
  split; [apply Hdescribe|].
  split; [vm_compute; reflexivity|].
  split; [apply Hgenerate|].
  apply (Hdefault 8%positive); reflexivity.
Defined.

(** ** Further properties of the renderer *)

Lemma isinstance_class (f : Feature) (c c' : FeatureClass) :
  class f = c -> isinstance f c' = bool_decide (c = c').
Proof. by intros <-. Qed.

Lemma direct_loop_inv (k : nat) :
  forall cur dd b out,
    height cur <= k ->
    direct_loop cur dd = Ok (b, out) ->
    exists ds rels,
      direct_chain cur ds b
      /\ Forall2 (fun d r => last_relationship d = Ok r) ds rels
      /\ out = " of" +:+ hop_fragments rels +:+ dd.
Proof.
  induction k as [|k IH]; intros cur dd b out Hk.
  { pose proof (height_pos cur). lia. }
  rewrite direct_loop_unfold.
  destruct (base_features cur) as [|g rest] eqn:Hbf; [discriminate|].
  assert (height g < height cur) as Hg.
  { apply height_base_features. rewrite Hbf. left. }
  destruct (isinstance g DirectFeature) eqn:Hdirect.
  - intros Hloop. apply bind_Ok in Hloop as (rel & Hrel & Hloop).
    apply IH in Hloop as (ds & rels & Hchain & Hrels & ->); [|lia].
    exists (g :: ds), (rel :: rels). split; [|split].
    + by eapply direct_chain_step.
    + by constructor.
    + rewrite hop_fragments_cons. fold (hop_fragment rel).
      by rewrite <- !append_assoc.
  - intros [= <- <-]. exists [], []. split; [|split].
    + by eapply direct_chain_end.
    + constructor.
    + reflexivity.
Qed.

(** X6: whenever the unwinder returns, it returns the end of the chain of
    direct features and the phrase built from that chain. *)
Theorem get_direct_description_inv (f b : Feature) (phrase : string) :
  get_direct_description f = Ok (b, phrase) ->
  exists ds rel rels,
    direct_chain f ds b
    /\ last_relationship f = Ok rel
    /\ Forall2 (fun d r => last_relationship d = Ok r) ds rels
    /\ phrase =
       " of" +:+ hop_fragments rels
       +:+ " the instance of "
       +:+ quoted (Entity.id (Relationship.parent_entity rel))
       +:+ " associated with this instance of " +:+ quoted (entity_id f).
Proof.
  unfold get_direct_description. intros Hget.
  apply bind_Ok in Hget as (rel & Hrel & Hloop).
  apply (direct_loop_inv (height f)) in Hloop
    as (ds & rels & Hchain & Hrels & ->); [|lia].
  by exists ds, rel, rels.
Qed.

Lemma get_direct_description_inv_witness :
  exists ds rel rels,
    direct_chain Sample.session_age ds Sample.age
    /\ last_relationship Sample.session_age = Ok rel
    /\ Forall2 (fun d r => last_relationship d = Ok r) ds rels
    /\ " of the instance of " +:+ quoted "customers"
       +:+ " associated with this instance of " +:+ quoted "sessions"
       = " of" +:+ hop_fragments rels
         +:+ " the instance of "
         +:+ quoted (Entity.id (Relationship.parent_entity rel))
         +:+ " associated with this instance of "
         +:+ quoted (entity_id Sample.session_age).
Proof.
  apply (get_direct_description_inv Sample.session_age Sample.age).
  reflexivity.
Defined.

(** X1: an identity feature without an override renders as ["the "]
    followed by its name between double quotes. *)
Theorem generate_description_identity `{FeatureModel}
    (fd : gmap key string) (pt : gmap key template) (f : Feature) :
  overridden fd f = false ->
  isinstance f IdentityFeature = true ->
  generate_description fd pt f
  = Ok (VStr ("the " +:+ in_double_quotes (get_name f))).
Proof.
  intros Ho Hid. rewrite generate_description_eq.
  unfold generate_description_body. unfold overridden in Ho.
  by rewrite Ho, Hid, quoted_in_double_quotes.
Qed.

Lemma generate_description_identity_witness :
  generate_description ∅ ∅ Sample.age
  = Ok (VStr ("the "
              +:+ String "034"%char ("age" +:+ String "034"%char EmptyString))).
Proof.
  apply (generate_description_identity ∅ ∅ Sample.age); reflexivity.
Defined.

(** X2: an override whose selected value is a non-empty string is returned
    verbatim, whatever the feature is: the value under the feature object
    when that is non-empty, and the value under the unique name when the
    feature object is not a key. *)
Theorem generate_description_override_verbatim `{FeatureModel}
    (fd : gmap key string) (pt : gmap key template) (f : Feature) (s : string) :
  (fd !! by_object (obj f) = Some s -> s <> "" ->
   generate_description fd pt f = Ok (VStr s))
  /\ (fd !! by_object (obj f) = None ->
      fd !! by_name (unique_name f) = Some s ->
      generate_description fd pt f = Ok (VStr s)).
Proof.
  split.
  - apply generate_description_override_by_object.
  - apply generate_description_override_by_name.
Qed.

Lemma generate_description_override_verbatim_witness :
  generate_description Sample.caller_descriptions ∅ Sample.customer_id
  = Ok (VStr "the customer").
Proof.
  apply (proj2 (generate_description_override_verbatim
                  Sample.caller_descriptions ∅ Sample.customer_id
                  "the customer")); reflexivity.
Defined.

(** X3: the group-by name is the selected override without a leading
    ["the "] when the lookup selects a string; when the identity feature
    over the index column has no override it is the id of the index column
    in double quotes, [" in "], and the entity id in double quotes. *)
Theorem get_aggregation_groupby_resolved `{FeatureModel}
    (fd : gmap key string) (f : Feature) (variable : Var.t) :
  Entity.getitem (entity f) (Entity.index (entity f)) = Ok variable ->
  (forall s,
      overridden fd (new_IdentityFeature variable) = true ->
      override_of fd (new_IdentityFeature variable) = VStr s ->
      get_aggregation_groupby f fd = Ok (strip_the s))
  /\ (overridden fd (new_IdentityFeature variable) = false ->
      get_aggregation_groupby f fd
      = Ok (in_double_quotes (Entity.index (entity f)) +:+ " in "
            +:+ in_double_quotes (Entity.id (entity f)))).
Proof.
  intros Hvar. split.
  - intros s. by apply get_aggregation_groupby_override.
  - intros Ho. rewrite <- !quoted_in_double_quotes.
    by apply (get_aggregation_groupby_default fd f variable).
Qed.

Lemma get_aggregation_groupby_resolved_witness :
  get_aggregation_groupby (Sample.mean_amount None None)
    Sample.caller_descriptions = Ok "customer"
  /\ get_aggregation_groupby (Sample.mean_amount None None) ∅
     = Ok (String "034"%char ("id" +:+ String "034"%char EmptyString)
           +:+ " in "
           +:+ String "034"%char ("customers" +:+ String "034"%char EmptyString)).
Proof.
  destruct (get_aggregation_groupby_resolved Sample.caller_descriptions
              (Sample.mean_amount None None) (Var.mk "id" "id" "customers")
              eq_refl) as [Hover _].
  destruct (get_aggregation_groupby_resolved ∅
              (Sample.mean_amount None None) (Var.mk "id" "id" "customers")
              eq_refl) as [_ Hdefault].
  split.
  - apply (Hover "the customer"); reflexivity.
  - apply Hdefault. reflexivity.
Defined.

(** X5: an aggregation without where clause, window and overrides, whose
    primitive fragment is not empty, reads: the primitive fragment,
    [" of all instances of "], the child entity id in double quotes,
    [" for each "], the id of the index column in double quotes, [" in "],
    the entity id in double quotes. *)
Theorem generate_description_aggregation `{FeatureModel}
    (fd : gmap key string) (pt : gmap key template) (f : Feature)
    (groupby_description : option pyval) (input_descriptions : list pyval)
    (p : string) (hops : list (bool * Relationship.t)) (fwd : bool)
    (rel : Relationship.t) (variable : Var.t) :
  overridden fd f = false ->
  isinstance f AggregationFeature = true ->
  input_descriptions_of (generate_description fd pt) f
    = Ok (groupby_description, input_descriptions) ->
  primitive_description_of pt f input_descriptions = Ok p ->
  p <> "" ->
  where_ f = None -> use_previous f = None ->
  relationship_path f = hops ++ [(fwd, rel)] ->
  Entity.getitem (entity f) (Entity.index (entity f)) = Ok variable ->
  overridden fd (new_IdentityFeature variable) = false ->
  generate_description fd pt f
  = Ok (VStr (p +:+ " of all instances of "
              +:+ in_double_quotes (Entity.id (Relationship.child_entity rel))
              +:+ " for each "
              +:+ in_double_quotes (Entity.index (entity f))
              +:+ " in " +:+ in_double_quotes (Entity.id (entity f)))).
Proof.
  intros Ho Hagg Hin Hp Hne Hwhere Hwindow Hpath Hvar Hg.
  assert (class f = AggregationFeature) as Hclass
    by by apply bool_decide_eq_true_1 in Hagg.
  rewrite <- !quoted_in_double_quotes.
  rewrite (generate_description_parts fd pt f f groupby_description
             input_descriptions p
             ("of all instances of "
              +:+ quoted (Entity.id (Relationship.child_entity rel)))
             ""
             ("for each " +:+ quoted (Entity.index (entity f))
              +:+ " in " +:+ quoted (Entity.id (entity f)))); try done.
  - rewrite join_template_four. unfold glue.
    rewrite (bool_decide_eq_false_2 (p = "")) by done.
    by rewrite <- !append_assoc.
  - unfold isinstance. rewrite Hclass. by apply bool_decide_eq_false_2.
  - unfold isinstance. rewrite Hclass. by apply bool_decide_eq_false_2.
  - unfold working_feature, isinstance. rewrite Hclass.
    by rewrite bool_decide_eq_false_2.
  - rewrite (entity_description_of_aggregation f hops fwd rel Hagg Hpath).
    by rewrite Hwindow.
  - unfold where_of. rewrite Hwhere. by destruct (has_where f).
  - unfold groupby_of. rewrite Hagg.
    by rewrite (get_aggregation_groupby_default fd f variable Hvar Hg).
Qed.

Lemma generate_description_aggregation_witness :
  describe_feature (Sample.mean_amount None None) None None None
  = Ok ("The average of the "
        +:+ String "034"%char ("amount" +:+ String "034"%char EmptyString)
        +:+ " of all instances of "
        +:+ String "034"%char ("transactions" +:+ String "034"%char EmptyString)
        +:+ " for each "
        +:+ String "034"%char ("id" +:+ String "034"%char EmptyString)
        +:+ " in "
        +:+ String "034"%char ("customers" +:+ String "034"%char EmptyString)
        +:+ ".").
Proof.
  unfold describe_feature.
  change (merged_mappings None None None) with (Ok (∅ : gmap key string, ∅ : gmap key template)).
  cbn [mbind res_bind].
  rewrite (generate_description_aggregation ∅ ∅ (Sample.mean_amount None None)
             None [VStr ("the " +:+ quoted "amount")]
             ("the average of the " +:+ quoted "amount")
             [] false Sample.customers_transactions
             (Var.mk "id" "id" "customers")); try reflexivity.
  discriminate.
Defined.

(** X7: a sliced output that wraps a group-by transform: line 68 tests the
    slice, so nothing is popped; line 90 tests the wrapped feature and reads
    [groupby_description], which was never bound. *)
Theorem generate_description_sliced_groupby `{FeatureModel}
    (fd : gmap key string) (pt : gmap key template) (f g : Feature)
    (input_descriptions : list pyval) (p : string) :
  overridden fd f = false ->
  isinstance f FeatureOutputSlice = true ->
  base_feature f = Some g ->
  isinstance g GroupByTransformFeature = true ->
  for_each (generate_description fd pt) (base_features g)
    = Ok input_descriptions ->
  primitive_description_of pt f input_descriptions = Ok p ->
  generate_description fd pt f = Raise UnboundLocalError.
Proof.
  intros Ho Hslice Hg Hgroup Hin Hp.
  assert (class f = FeatureOutputSlice) as Hf
    by by apply bool_decide_eq_true_1 in Hslice.
  assert (class g = GroupByTransformFeature) as Hclass
    by by apply bool_decide_eq_true_1 in Hgroup.
  rewrite generate_description_eq. unfold generate_description_body.
  unfold overridden in Ho. rewrite Ho.
  unfold input_descriptions_of, working_feature, get_base_feature, groupby_of.
  rewrite !(isinstance_class f FeatureOutputSlice) by done.
  rewrite Hg. simpl. rewrite Hin. simpl. rewrite Hp. simpl.
  unfold isinstance. by rewrite Hclass.
Qed.

Lemma generate_description_sliced_groupby_witness :
  generate_description ∅ ∅ (Sample.sliced Sample.cum_sum_amount 0)
  = Raise UnboundLocalError.
Proof.
  apply (generate_description_sliced_groupby ∅ ∅
           (Sample.sliced Sample.cum_sum_amount 0) Sample.cum_sum_amount
           [VStr ("the " +:+ quoted "amount");
            VStr ("the " +:+ quoted "session_id")]
           ("the cumulative sum of the " +:+ quoted "amount" +:+ ", the "
            +:+ quoted "session_id"));
    reflexivity.
Defined.

(** ** The entry point without a metadata file *)

(** X8: without a metadata path - [None] or the empty string - no file is
    opened: the outcome is the same whatever the file system holds, it is
    the sentence of the phrase generated with the caller's mappings, and an
    absent mapping and an empty one give the same outcome. *)
Theorem describe_feature_without_file `{FeatureModel} (fs1 fs2 : FileSystem)
    (f : Feature) (fd : option (gmap key string))
    (pt : option (gmap key template)) (metadata_file : option string) :
  metadata_file = None \/ metadata_file = Some "" ->
  @describe_feature _ fs1 f fd pt metadata_file
    = @describe_feature _ fs2 f fd pt metadata_file
  /\ @describe_feature _ fs1 f fd pt metadata_file
     = generate_description (or_empty fd) (or_empty pt) f ≫= sentence
  /\ @describe_feature _ fs1 f None None metadata_file
     = @describe_feature _ fs1 f (Some ∅) (Some ∅) metadata_file.
Proof.
  intros [-> | ->]; repeat split; reflexivity.
Qed.

Lemma describe_feature_without_file_witness :
  describe_feature Sample.age (Some Sample.caller_descriptions) None (Some "")
  = generate_description Sample.caller_descriptions ∅ Sample.age ≫= sentence.
Proof.
  apply (describe_feature_without_file Sample.files Sample.files Sample.age
           (Some Sample.caller_descriptions) None (Some "")).
  right. reflexivity.
Defined.

(** ** What a metadata file can override *)

#[local] Instance by_name_inj : Inj (=) (=) by_name.
Proof. intros a b [= ->]. reflexivity. Qed.

Lemma as_dict_by_name {V} (o : gmap string V) (s : string) :
  Json.as_dict o !! by_name s = o !! s.
Proof. unfold Json.as_dict. apply lookup_kmap, _. Qed.

Lemma as_dict_by_object {V} (o : gmap string V) (i : positive) :
  Json.as_dict o !! by_object i = None.
Proof.
  unfold Json.as_dict. apply lookup_kmap_None; [apply _|].
  intros s Hs. discriminate Hs.
Qed.

Lemma parse_json_metadata_Ok `{FileSystem} (path : string) (h : file)
    (j : Json.t) :
  open_ path = Ok h -> json_load h = Ok j ->
  parse_json_metadata path
  = Ok (default ∅ (Json.as_dict <$> Json.feature_descriptions j),
        default ∅ (Json.as_dict <$> Json.primitive_templates j)).
Proof. intros Hopen Hload. unfold parse_json_metadata. rewrite Hopen. cbn. by rewrite Hload. Qed.

(** X10: a description that the metadata file gives under the unique name of
    the feature is the description of the feature - capitalised, with a
    period - whenever the caller's mapping has no entry for the feature,
    neither under the object nor under the name. *)
Theorem describe_feature_file_description `{FeatureModel} `{FileSystem}
    (f : Feature) (fd : option (gmap key string))
    (pt : option (gmap key template)) (path : string) (h : file)
    (j : Json.t) (m : gmap string string) (s : string) :
  path <> "" ->
  open_ path = Ok h -> json_load h = Ok j ->
  Json.feature_descriptions j = Some m ->
  m !! unique_name f = Some s ->
  or_empty fd !! by_object (obj f) = None ->
  or_empty fd !! by_name (unique_name f) = None ->
  describe_feature f fd pt (Some path) = sentence (VStr s).
Proof.
  intros Hpath Hopen Hload Hj Hs Hobj Hname.
  unfold describe_feature, merged_mappings.
  rewrite path_given by done.
  rewrite (parse_json_metadata_Ok path h j Hopen Hload), Hj. cbn.
  rewrite (generate_description_override_by_name _ _ f s); [done| |].
  - rewrite dict_merge_base by done. apply as_dict_by_object.
  - rewrite dict_merge_base by done. by rewrite as_dict_by_name.
Qed.

Lemma describe_feature_file_description_witness :
  describe_feature Sample.age (Some Sample.caller_descriptions) None
    (Some "meta.json")
  = Ok "The age in the file.".
Proof.
  apply (@describe_feature_file_description Sample.model Sample.files
           Sample.age
           (Some Sample.caller_descriptions) None "meta.json" "meta"
           (Json.mk (Some {[ "customers: age" := "the age in the file";
                             "customers: id" := "the customer" ]}) None)
           {[ "customers: age" := "the age in the file";
              "customers: id" := "the customer" ]}
           "the age in the file");
    try reflexivity.
  discriminate.
Defined.

(** ** More on overrides *)

Lemma truthy_false (v : pyval) :
  truthy v = false -> v = VNone \/ v = VStr "".
Proof.
  destruct v as [|s]; [by left|]. cbn. rewrite string_eqb_empty.
  intros Hs. right. apply negb_false_iff, bool_decide_eq_true_1 in Hs.
  by rewrite Hs.
Qed.

Lemma get_VNone (fd : gmap key string) (k : key) :
  get fd k = VNone <-> fd !! k = None.
Proof. unfold get. destruct (fd !! k); split; done. Qed.

Lemma get_VStr (fd : gmap key string) (k : key) (s : string) :
  get fd k = VStr s <-> fd !! k = Some s.
Proof. unfold get. destruct (fd !! k); split; congruence. Qed.

Lemma override_of_VNone (fd : gmap key string) (f : Feature) :
  overridden fd f = true ->
  override_of fd f = VNone ->
  fd !! by_object (obj f) = Some "" /\ fd !! by_name (unique_name f) = None.
Proof.
  unfold overridden, override_of, py_or, contains.
  intros Ho Hnone.
  destruct (truthy (get fd (by_object (obj f)))) eqn:Ht.
  { rewrite Hnone in Ht. discriminate. }
  apply get_VNone in Hnone. split; [|done].
  apply truthy_false in Ht as [Ht | Ht]; [|by apply get_VStr].
  apply get_VNone in Ht. rewrite Ht, Hnone in Ho.
  apply orb_true_iff in Ho as [Ho | Ho];
    apply bool_decide_eq_true_1 in Ho; by destruct Ho.
Qed.

(** X11: for a feature that is a key of the override mapping - as an object
    or by its unique name - the outcome depends on nothing but these two
    keys: any feature with the same object key and unique name, whatever
    its class, children and primitive, and any template mapping give the
    same outcome. *)
Theorem generate_description_override_only_keys `{FeatureModel}
    (fd : gmap key string) (pt pt' : gmap key template) (f g : Feature) :
  overridden fd f = true ->
  obj g = obj f -> unique_name g = unique_name f ->
  generate_description fd pt' g = generate_description fd pt f.
Proof.
  intros Ho Hobj Hname.
  rewrite !generate_description_overridden.
  - unfold override_of. by rewrite Hobj, Hname.
  - done.
  - unfold overridden. rewrite Hobj, Hname. exact Ho.
Qed.

Lemma generate_description_override_only_keys_witness :
  generate_description Sample.caller_descriptions
    {[ by_name "cum_sum" := TStr "running total" ]} Sample.customer_id_sum
  = generate_description Sample.caller_descriptions ∅ Sample.customer_id.
Proof.
  apply (generate_description_override_only_keys
           Sample.caller_descriptions ∅ _
           Sample.customer_id Sample.customer_id_sum);
    reflexivity.
Defined.

(** X12: with an override mapping whose values are all strings,
    [generate_description] returns [None] in exactly one situation: the
    feature object is a key mapped to the empty string and the unique name
    is not a key. In every other case in which it returns, it returns a
    string. *)
Theorem generate_description_None `{FeatureModel}
    (fd : gmap key string) (pt : gmap key template) (f : Feature) :
  generate_description fd pt f = Ok VNone
  <-> fd !! by_object (obj f) = Some ""
      /\ fd !! by_name (unique_name f) = None.
Proof.
  split.
  - rewrite generate_description_eq. unfold generate_description_body.
    fold (overridden fd f). fold (override_of fd f).
    destruct (overridden fd f) eqn:Ho.
    { intros [= Hnone]. by apply override_of_VNone. }
    destruct (isinstance f IdentityFeature); [discriminate|].
    destruct (isinstance f DirectFeature).
    { intros Hd. apply bind_Ok in Hd as ([b d] & _ & Hd).
      apply bind_Ok in Hd as ([|v] & _ & Hd); discriminate. }
    intros Hg.
    apply bind_Ok in Hg as ([gd ins] & _ & Hg).
    apply bind_Ok in Hg as (p & _ & Hg).
    apply bind_Ok in Hg as (f' & _ & Hg).
    apply bind_Ok in Hg as (g & _ & Hg).
    apply bind_Ok in Hg as (e & _ & Hg).
    apply bind_Ok in Hg as (w & _ & Hg). discriminate.
  - intros [Hobj Hname]. rewrite generate_description_overridden.
    + rewrite override_of_falsy by done. by apply f_equal, get_VNone.
    + unfold overridden. by rewrite (contains_true _ _ "" Hobj).
Qed.

Lemma generate_description_None_witness :
  generate_description Sample.age_object_empty ∅ Sample.age = Ok VNone.
Proof.
  apply (proj2 (generate_description_None Sample.age_object_empty ∅
                  Sample.age)).
  split; reflexivity.
Defined.

(** ** What the helpers can raise *)

Lemma last_item_Raise {A} (xs : list A) (e : exn) :
  last_item xs = Raise e -> e = IndexError /\ xs = [].
Proof.
  unfold last_item. destruct (last xs) eqn:Hl; [discriminate|].
  intros [= <-]. split; [done|]. by apply last_None.
Qed.

Lemma last_relationship_Raise (f : Feature) (e : exn) :
  last_relationship f = Raise e -> e = IndexError /\ relationship_path f = [].
Proof.
  unfold last_relationship.
  destruct (last_item (relationship_path f)) as [hop|e'] eqn:Hl; [discriminate|].
  intros [= <-]. by apply last_item_Raise.
Qed.

Lemma direct_loop_Raise (k : nat) :
  forall cur dd e,
    height cur <= k -> direct_loop cur dd = Raise e -> e = IndexError.
Proof.
  induction k as [|k IH]; intros cur dd e Hk.
  { pose proof (height_pos cur). lia. }
  rewrite direct_loop_unfold.
  destruct (base_features cur) as [|g rest] eqn:Hbf; [by intros [= <-]|].
  assert (height g < height cur) as Hg.
  { apply height_base_features. rewrite Hbf. left. }
  destruct (isinstance g DirectFeature); [|discriminate].
  destruct (last_relationship g) as [rel|e'] eqn:Hrel.
  - cbn. intros Hloop. apply IH in Hloop; [done|lia].
  - cbn. intros [= <-]. by apply last_relationship_Raise in Hrel as [-> _].
Qed.

(** X13: the only exception [get_direct_description] raises is
    [IndexError]. It raises it for a feature with an empty relationship
    path and for a feature without base features; on a feature whose
    relationship path and first base feature exist and whose first base
    feature is not a direct feature it returns. *)
Theorem get_direct_description_raises (f : Feature) :
  (forall e, get_direct_description f = Raise e -> e = IndexError)
  /\ (relationship_path f = [] \/ base_features f = [] ->
      get_direct_description f = Raise IndexError)
  /\ (forall hops hop b rest,
        relationship_path f = hops ++ [hop] ->
        base_features f = b :: rest ->
        isinstance b DirectFeature = false ->
        exists phrase, get_direct_description f = Ok (b, phrase)).
Proof.
  split; [|split].
  - intros e. unfold get_direct_description.
    destruct (last_relationship f) as [rel|e'] eqn:Hrel; cbn.
    + by apply (direct_loop_Raise (height f)).
    + intros [= <-]. by apply last_relationship_Raise in Hrel as [-> _].
  - unfold get_direct_description, last_relationship.
    intros [Hpath | Hbf].
    + by rewrite Hpath.
    + destruct (last_item (relationship_path f)) as [hop|e] eqn:Hl; cbn.
      * by rewrite direct_loop_unfold, Hbf.
      * by apply last_item_Raise in Hl as [-> _].
  - intros hops [fwd rel] b rest Hpath Hbf Hb.
    unfold get_direct_description.
    rewrite (last_relationship_snoc f hops fwd rel Hpath). cbn.
    rewrite direct_loop_unfold, Hbf, Hb. by eexists.
Qed.

Lemma get_direct_description_raises_witness :
  get_direct_description Sample.broken_direct = Raise IndexError
  /\ exists phrase,
       get_direct_description Sample.session_age = Ok (Sample.age, phrase).
Proof.
  split.
  - apply (proj1 (proj2 (get_direct_description_raises Sample.broken_direct))).
    left. reflexivity.
  - apply (proj2 (proj2 (get_direct_description_raises Sample.session_age))
             [] (true, Sample.customers_sessions) Sample.age []);
      reflexivity.
Defined.

Lemma getitem_Raise (e : Entity.t) (variable_id : string) (x : exn) :
  Entity.getitem e variable_id = Raise x -> x = KeyError.
Proof. unfold Entity.getitem. destruct (find _ _); [discriminate|]. by intros [= <-]. Qed.

(** ** Inputs, group-by transforms and sliced outputs *)

Lemma for_each_app {A B} (f : A -> res B) (xs ys : list A) :
  for_each f (xs ++ ys) =
  xs' ← for_each f xs; ys' ← for_each f ys; Ok (xs' ++ ys').
Proof.
  induction xs as [|x xs IH]; cbn.
  - by destruct (for_each f ys).
  - destruct (f x) as [y|e]; cbn; [|done]. rewrite IH.
    destruct (for_each f xs) as [xs'|e]; cbn; [|done].
    by destruct (for_each f ys).
Qed.

Lemma pop_snoc {A} (xs : list A) (x : A) : pop (xs ++ [x]) = Ok (x, xs).
Proof. unfold pop. by rewrite last_snoc, removelast_last. Qed.

Lemma isinstance_other (f : Feature) (c c' : FeatureClass) :
  isinstance f c = true -> c <> c' -> isinstance f c' = false.
Proof.
  unfold isinstance. intros Hc Hne. apply bool_decide_eq_true_1 in Hc.
  apply bool_decide_eq_false_2. congruence.
Qed.

Lemma glue_empty_l (b : string) : glue "" b = b.
Proof. reflexivity. Qed.

(** X15: for a group-by transform the last base feature is the group-by
    key: its description is taken off the inputs, the primitive is handed
    the descriptions of the other base features only, and the phrase is the
    primitive fragment followed by ["for each <key description>"]. Without
    base features there is nothing to take off and the call raises
    [IndexError]. *)
Theorem generate_description_groupby_transform `{FeatureModel}
    (fd : gmap key string) (pt : gmap key template) (f : Feature) :
  overridden fd f = false ->
  isinstance f GroupByTransformFeature = true ->
  (forall inputs key_feature ds d p,
      base_features f = inputs ++ [key_feature] ->
      for_each (generate_description fd pt) inputs = Ok ds ->
      generate_description fd pt key_feature = Ok d ->
      primitive_description_of pt f ds = Ok p ->
      generate_description fd pt f
      = Ok (VStr (glue p ("for each " +:+ format d))))
  /\ (base_features f = [] ->
      generate_description fd pt f = Raise IndexError).
Proof.
  intros Ho Hclass.
  assert (isinstance f IdentityFeature = false) as Hid
    by by eapply isinstance_other.
  assert (isinstance f DirectFeature = false) as Hdirect
    by by eapply isinstance_other.
  assert (isinstance f FeatureOutputSlice = false) as Hslice
    by by eapply isinstance_other.
  assert (isinstance f AggregationFeature = false) as Hagg
    by by eapply isinstance_other.
  split.
  - intros inputs key_feature ds d p Hbf Hds Hd Hp.
    rewrite (generate_description_parts fd pt f f (Some d) ds p "" ""
               ("for each " +:+ format d)); try done.
    + by rewrite join_template_four.
    + unfold input_descriptions_of. rewrite Hslice, Hclass, Hbf. cbn.
      rewrite for_each_app, Hds. cbn. rewrite Hd. cbn.
      by rewrite pop_snoc.
    + unfold working_feature. by rewrite Hslice.
    + unfold entity_description_of. by rewrite Hagg.
    + unfold where_of, has_where. by rewrite Hagg.
    + unfold groupby_of. by rewrite Hagg, Hclass.
  - intros Hbf. rewrite generate_description_eq.
    unfold generate_description_body. unfold overridden in Ho.
    rewrite Ho, Hid, Hdirect. unfold input_descriptions_of.
    by rewrite Hslice, Hclass, Hbf.
Qed.

Lemma generate_description_groupby_transform_witness :
  generate_description ∅ ∅ Sample.cum_sum_amount
  = Ok (VStr (glue ("the cumulative sum of the " +:+ quoted "amount")
                   ("for each the " +:+ quoted "session_id"))).
Proof.
  destruct (generate_description_groupby_transform ∅ ∅ Sample.cum_sum_amount)
    as [Hdescribed _]; [reflexivity | reflexivity |].
  apply (Hdescribed [Sample.amount] Sample.session_id_of_transaction
           [VStr ("the " +:+ quoted "amount")]
           (VStr ("the " +:+ quoted "session_id")));
    reflexivity.
Defined.

(** X16: a sliced output is described like the feature it wraps, with the
    primitive fragment replaced: the inputs are the base features of the
    wrapped feature, and the entity, where and group-by clauses are the
    wrapped feature's. (The wrapped feature is an aggregation or a plain
    transform without override; the slice has no override.) *)
Theorem generate_description_slice `{FeatureModel}
    (fd : gmap key string) (pt : gmap key template) (f g : Feature)
    (ins : list pyval) (pf pg dg : string) :
  overridden fd f = false ->
  isinstance f FeatureOutputSlice = true ->
  base_feature f = Some g ->
  overridden fd g = false ->
  isinstance g AggregationFeature = true
    \/ isinstance g TransformFeature = true ->
  for_each (generate_description fd pt) (base_features g) = Ok ins ->
  primitive_description_of pt f ins = Ok pf ->
  primitive_description_of pt g ins = Ok pg ->
  generate_description fd pt g = Ok (VStr dg) ->
  exists clauses,
    dg = glue pg clauses
    /\ generate_description fd pt f = Ok (VStr (glue pf clauses)).
Proof.
  intros Hof Hslice Hg Hog Hclass Hins Hpf Hpg Hdg.
  assert (isinstance f IdentityFeature = false) as Hfid
    by by eapply isinstance_other.
  assert (isinstance f DirectFeature = false) as Hfdirect
    by by eapply isinstance_other.
  assert (isinstance f GroupByTransformFeature = false) as Hfgroup
    by by eapply isinstance_other.
  assert (isinstance g IdentityFeature = false
          /\ isinstance g DirectFeature = false
          /\ isinstance g FeatureOutputSlice = false
          /\ isinstance g GroupByTransformFeature = false)
    as (Hgid & Hgdirect & Hgslice & Hggroup).
  { destruct Hclass; repeat split; by eapply isinstance_other. }
  assert (input_descriptions_of (generate_description fd pt) g = Ok (None, ins))
    as Hing.
  { unfold input_descriptions_of. rewrite Hgslice. cbn [mbind res_bind].
    rewrite Hins. cbn [mbind res_bind]. by rewrite Hggroup. }
  assert (input_descriptions_of (generate_description fd pt) f = Ok (None, ins))
    as Hinf.
  { unfold input_descriptions_of, get_base_feature.
    rewrite Hslice, Hg. cbn [mbind res_bind].
    rewrite Hins. cbn [mbind res_bind]. by rewrite Hfgroup. }
  destruct (generate_description_general_inv fd pt g (VStr dg))
    as (g' & gd & ins' & p & e & w & gr & Hin' & Hp & Hg' & He & Hw & Hgr & Hr);
    try done.
  rewrite Hing in Hin'. injection Hin' as <- <-.
  rewrite Hpg in Hp. injection Hp as <-.
  unfold working_feature in Hg'. rewrite Hgslice in Hg'. injection Hg' as <-.
  injection Hr as ->.
  exists (glue e (glue w gr)). split; [done|].
  rewrite (generate_description_parts fd pt f g None ins pf e w gr); try done.
  - by rewrite join_template_four.
  - unfold working_feature, get_base_feature. by rewrite Hslice, Hg.
Qed.

Lemma generate_description_slice_witness :
  exists clauses,
    "the average of the " +:+ quoted "amount"
      +:+ " of all instances of " +:+ quoted "transactions"
      +:+ " for each " +:+ quoted "id" +:+ " in " +:+ quoted "customers"
    = glue ("the average of the " +:+ quoted "amount") clauses
    /\ generate_description ∅ ∅ (Sample.sliced (Sample.mean_amount None None) 1)
       = Ok (VStr (glue ("the average of the " +:+ quoted "amount") clauses)).
Proof.
  apply (generate_description_slice ∅ ∅
           (Sample.sliced (Sample.mean_amount None None) 1)
           (Sample.mean_amount None None)
           [VStr ("the " +:+ quoted "amount")]);
    try reflexivity.
  left. reflexivity.
Defined.

(** X17: the inputs are described in order and the first exception ends the
    call: when the descriptions of the base features before [c] succeed and
    that of [c] raises, the call raises the same exception, whatever comes
    after [c], the primitive, and the clauses. *)
Theorem generate_description_input_raises `{FeatureModel}
    (fd : gmap key string) (pt : gmap key template) (f c : Feature)
    (before after : list Feature) (ds : list pyval) (e : exn) :
  overridden fd f = false ->
  isinstance f AggregationFeature = true
    \/ isinstance f TransformFeature = true
    \/ isinstance f GroupByTransformFeature = true ->
  base_features f = before ++ c :: after ->
  for_each (generate_description fd pt) before = Ok ds ->
  generate_description fd pt c = Raise e ->
  generate_description fd pt f = Raise e.
Proof.
  intros Ho Hclass Hbf Hds He.
  assert (isinstance f IdentityFeature = false
          /\ isinstance f DirectFeature = false
          /\ isinstance f FeatureOutputSlice = false)
    as (Hid & Hdirect & Hslice).
  { destruct Hclass as [? | [? | ?]]; repeat split; by eapply isinstance_other. }
  rewrite generate_description_eq. unfold generate_description_body.
  unfold overridden in Ho. rewrite Ho, Hid, Hdirect.
  unfold input_descriptions_of. rewrite Hslice, Hbf. cbn.
  rewrite for_each_app, Hds. cbn. by rewrite He.
Qed.

Lemma generate_description_input_raises_witness :
  generate_description ∅ ∅ Sample.cum_sum_broken = Raise IndexError.
Proof.
  apply (generate_description_input_raises ∅ ∅ Sample.cum_sum_broken
           Sample.broken_direct [Sample.amount] [Sample.age]
           [VStr ("the " +:+ quoted "amount")]);
    try reflexivity.
  right. left. reflexivity.
Defined.

(** ** Direct chains, templates and where clauses *)

(** X18: the description of a direct feature without override is that of
    the feature at the end of its chain followed by the chain's phrase,
    with whatever the description of that feature raises raised, and
    [TypeError] when it is [None]. The direct features in between are not
    looked up: overrides given for them change nothing. *)
Theorem generate_description_direct_chain `{FeatureModel}
    (fd : gmap key string) (pt : gmap key template)
    (f b : Feature) (ds : list Feature)
    (rel : Relationship.t) (rels : list Relationship.t) :
  isinstance f DirectFeature = true ->
  overridden fd f = false ->
  direct_chain f ds b ->
  last_relationship f = Ok rel ->
  Forall2 (fun d r => last_relationship d = Ok r) ds rels ->
  generate_description fd pt f
  = match generate_description fd pt b with
    | Ok (VStr d) => Ok (VStr (d +:+ direct_phrase f rel rels))
    | Ok VNone => Raise TypeError
    | Raise e => Raise e
    end.
Proof.
  intros Hdirect Ho Hchain Hrel Hrels.
  assert (isinstance f IdentityFeature = false) as Hid
    by by eapply isinstance_other.
  rewrite generate_description_eq. unfold generate_description_body.
  unfold overridden in Ho. rewrite Ho, Hid, Hdirect.
  unfold get_direct_description. rewrite Hrel. cbn [mbind res_bind].
  rewrite (direct_loop_chain ds f b rels _ Hchain Hrels). cbn [mbind res_bind].
  by destruct (generate_description fd pt b) as [[|d]|e].
Qed.

Lemma generate_description_direct_chain_witness :
  overridden Sample.session_age_described Sample.session_age = true
  /\ generate_description Sample.session_age_described ∅ Sample.transaction_age
     = Ok (VStr ("the " +:+ quoted "age"
                 +:+ direct_phrase Sample.transaction_age
                       Sample.sessions_transactions
                       [Sample.customers_sessions])).
Proof.
  split; [reflexivity|].
  rewrite (generate_description_direct_chain Sample.session_age_described ∅
             Sample.transaction_age Sample.age [Sample.session_age]
             Sample.sessions_transactions [Sample.customers_sessions]).
  - reflexivity.
  - reflexivity.
  - reflexivity.
  - eapply direct_chain_step; [reflexivity | reflexivity |].
    eapply direct_chain_end; reflexivity.
  - reflexivity.
  - repeat constructor.
Defined.

Lemma primitive_description_of_eq
    (pt : gmap key template) (f : Feature) (ins : list pyval) :
  primitive_description_of pt f ins
  = Primitive.get_description (primitive f) ins
      (if isinstance f FeatureOutputSlice then Some (n f) else None)
      (template_of pt f).
Proof.
  unfold primitive_description_of, template_of, contains.
  destruct (pt !! by_object _) as [t|] eqn:Hobj.
  - rewrite bool_decide_eq_true_2 by by eexists. reflexivity.
  - destruct (pt !! by_name _) as [t|] eqn:Hname.
    + rewrite (bool_decide_eq_true_2 (is_Some (Some t))) by by eexists.
      by rewrite orb_true_r.
    + rewrite !bool_decide_eq_false_2 by by intros [? ?]. reflexivity.
Qed.

(** X19: the template the primitive is handed is the one under the
    primitive object unless that is missing or empty (an empty string or an
    empty list), and then the one under the primitive's name; with neither
    the primitive is handed [None]. A sliced output hands on its index. *)
Theorem primitive_description_of_template
    (pt : gmap key template) (f : Feature) (ins : list pyval) :
  primitive_description_of pt f ins
  = Primitive.get_description (primitive f) ins
      (if isinstance f FeatureOutputSlice then Some (n f) else None)
      (template_of pt f)
  /\ (forall t, pt !! by_object (Primitive.obj (primitive f)) = Some t ->
                template_truthy (Some t) = true ->
                template_of pt f = Some t)
  /\ (template_truthy (pt !! by_object (Primitive.obj (primitive f))) = false ->
      template_of pt f = pt !! by_name (Primitive.name (primitive f))).
Proof.
  split; [|split].
  - apply primitive_description_of_eq.
  - intros t Hobj Ht. unfold template_of, template_or. by rewrite Hobj, Ht.
  - intros Ht. unfold template_of, template_or. by rewrite Ht.
Qed.

Lemma primitive_description_of_template_witness :
  template_of {[ by_object 2%positive := TStr "";
                 by_name "mean" := TStr "mean value" ]}
    (Sample.mean_amount None None)
  = Some (TStr "mean value").
Proof.
  rewrite (proj2 (proj2 (primitive_description_of_template
                           {[ by_object 2%positive := TStr "";
                              by_name "mean" := TStr "mean value" ]}
                           (Sample.mean_amount None None) []))).
  - reflexivity.
  - reflexivity.
Defined.



(** ** The sentence and the join *)

Lemma append_length (a b : string) :
  String.length (a +:+ b) = String.length a + String.length b.
Proof.
  induction a as [|x a IH]; [done|]. rewrite append_cons. cbn. by rewrite IH.
Qed.

(** X21: for a phrase of ASCII characters the sentence is one character
    longer than the phrase - nothing but the period is added - and
    capitalising is idempotent: the sentence of an already capitalised
    phrase is the same sentence. *)
Theorem sentence_length_idempotent (d s : string) :
  ascii_only d = true ->
  sentence (VStr d) = Ok s ->
  String.length s = S (String.length d)
  /\ ascii_only s = true
  /\ sentence (VStr (Str.upper (Str.take 1 d) +:+ Str.drop 1 d)) = Ok s.
Proof.
  intros Hascii. rewrite sentence_VStr. intros [= <-].
  destruct d as [|c rest].
  - repeat split; reflexivity.
  - cbn in Hascii. apply andb_true_iff in Hascii as [Hc Hrest].
    split; [|split].
    + change (S (String.length (rest +:+ ".")) = S (S (String.length rest))).
      rewrite append_length. cbn. lia.
    + change (ascii_only (String (Str.upper_char c) (rest +:+ ".")) = true).
      cbn [ascii_only]. rewrite (upper_char_ascii c Hc), ascii_only_app, Hrest.
      reflexivity.
    + change (Str.upper (Str.take 1 (String c rest))
              +:+ Str.drop 1 (String c rest))
        with (String (Str.upper_char c) rest).
      rewrite sentence_VStr.
      change (Ok (String (Str.upper_char (Str.upper_char c)) (rest +:+ "."))
              = Ok (String (Str.upper_char c) (rest +:+ "."))).
      by rewrite upper_char_idemp.
Qed.

Lemma sentence_length_idempotent_witness :
  String.length ("The " +:+ quoted "age" +:+ ".")
  = S (String.length ("the " +:+ quoted "age"))
  /\ ascii_only ("The " +:+ quoted "age" +:+ ".") = true
  /\ sentence (VStr (Str.upper (Str.take 1 ("the " +:+ quoted "age"))
                     +:+ Str.drop 1 ("the " +:+ quoted "age")))
     = Ok ("The " +:+ quoted "age" +:+ ".").
Proof.
  apply (sentence_length_idempotent ("the " +:+ quoted "age")); reflexivity.
Defined.

Lemma append_empty (a b : string) : a +:+ b = "" -> a = "".
Proof. by destruct a. Qed.

Lemma glue_empty (a b : string) : glue a b = "" <-> a = "" /\ b = "".
Proof.
  unfold glue. repeat case_bool_decide; subst; try tauto.
  split; [|tauto]. intros Hab. by apply append_empty in Hab.
Qed.

Lemma glue_empty_r (a : string) : glue a "" = a.
Proof. unfold glue. by repeat case_bool_decide. Qed.

Lemma glue_assoc (a b c : string) : glue a (glue b c) = glue (glue a b) c.
Proof.
  destruct (decide (a = "")) as [->|Ha]; [by rewrite !glue_empty_l|].
  destruct (decide (b = "")) as [->|Hb];
    [by rewrite glue_empty_l, glue_empty_r|].
  destruct (decide (c = "")) as [->|Hc]; [by rewrite !glue_empty_r|].
  unfold glue.
  rewrite (bool_decide_eq_false_2 (a = "")) by done.
  rewrite (bool_decide_eq_false_2 (b = "")) by done.
  rewrite (bool_decide_eq_false_2 (c = "")) by done.
  rewrite !bool_decide_eq_false_2.
  - by rewrite <- !append_assoc.
  - intros Hab. by apply append_empty in Hab.
  - intros Hbc. by apply append_empty in Hbc.
Qed.

(** X22: joining is compositional and adds no space of its own at either
    end: the join of two lists of parts put together is the join of the one,
    a single space, and the join of the other - the space only when both
    are non-empty - and the join is empty exactly when every part is. *)
Theorem join_template_app (xs ys : list string) :
  join_template (xs ++ ys) = glue (join_template xs) (join_template ys)
  /\ (join_template xs = "" <-> Forall (fun x => x = "") xs).
Proof.
  split.
  - induction xs as [|x xs IH]; [by rewrite glue_empty_l|].
    change ((x :: xs) ++ ys) with (x :: (xs ++ ys)).
    by rewrite !join_template_cons, IH, glue_assoc.
  - induction xs as [|x xs IH]; [done|].
    rewrite join_template_cons, glue_empty, IH, Forall_cons. tauto.
Qed.

(** ** Overrides for other features *)

Lemma subfeatures_unfold (f : Feature) :
  subfeatures f =
  f :: List.flat_map subfeatures (base_features f)
    ++ from_option subfeatures [] (where_ f)
    ++ from_option subfeatures [] (base_feature f).
Proof. by destruct f. Qed.

Lemma subfeatures_self (f : Feature) : f ∈ subfeatures f.
Proof. rewrite subfeatures_unfold. left. Qed.

Lemma subfeatures_base (f c g : Feature) :
  c ∈ base_features f -> g ∈ subfeatures c -> g ∈ subfeatures f.
Proof.
  intros Hc Hg. rewrite (subfeatures_unfold f). right.
  apply elem_of_app. left. apply list_elem_of_In, in_flat_map.
  exists c. split; by apply list_elem_of_In.
Qed.

Lemma subfeatures_where (f w g : Feature) :
  where_ f = Some w -> g ∈ subfeatures w -> g ∈ subfeatures f.
Proof.
  intros Hw Hg. rewrite (subfeatures_unfold f), Hw. right.
  apply elem_of_app. right. apply elem_of_app. by left.
Qed.

Lemma subfeatures_base_feature (f b g : Feature) :
  base_feature f = Some b -> g ∈ subfeatures b -> g ∈ subfeatures f.
Proof.
  intros Hb Hg. rewrite (subfeatures_unfold f), Hb. right.
  apply elem_of_app. right. apply elem_of_app. by right.
Qed.

Lemma direct_loop_subfeature (k : nat) :
  forall cur dd b out g,
    height cur <= k -> direct_loop cur dd = Ok (b, out) ->
    g ∈ subfeatures b -> g ∈ subfeatures cur.
Proof.
  induction k as [|k IH]; intros cur dd b out g Hk.
  { pose proof (height_pos cur). lia. }
  rewrite direct_loop_unfold.
  destruct (base_features cur) as [|c rest] eqn:Hbf; [discriminate|].
  assert (c ∈ base_features cur) as Hc by (rewrite Hbf; left).
  pose proof (height_base_features cur c Hc) as Hlt.
  destruct (isinstance c DirectFeature).
  - intros Hloop Hg. apply bind_Ok in Hloop as (rel & _ & Hloop).
    apply (subfeatures_base cur c g Hc).
    eapply IH; [|exact Hloop|exact Hg]. lia.
  - intros [= <- _] Hg. by apply (subfeatures_base cur c).
Qed.

Section same_overrides.
Context `{FeatureModel}.
Variables (fd fd' : gmap key string) (pt pt' : gmap key template).
Variables (rec rec' : Feature -> res pyval).

(** The two mappings pairs are alike on a tree. *)
Let alike (f : Feature) : Prop :=
  same_overrides fd fd' f /\ same_templates pt pt' f.

Hypothesis rec_same : forall g, alike g -> rec g = rec' g.

Lemma alike_sub (f c : Feature) :
  (forall g, g ∈ subfeatures c -> g ∈ subfeatures f) ->
  alike f -> alike c.
Proof.
  intros Hsub [Hf Ht]. split.
  - intros g Hg. apply Hf, Hsub, Hg.
  - intros g Hg. apply Ht, Hsub, Hg.
Qed.

Lemma same_entries_overridden (g : Feature) :
  same_entries fd fd' g ->
  overridden fd g = overridden fd' g /\ override_of fd g = override_of fd' g.
Proof.
  intros [Hobj Hname].
  unfold overridden, override_of, contains, get. by rewrite Hobj, Hname.
Qed.

Lemma same_overrides_groupby (f : Feature) :
  same_overrides fd fd' f ->
  isinstance f AggregationFeature = true ->
  get_aggregation_groupby f fd = get_aggregation_groupby f fd'.
Proof.
  intros Hf Hagg. destruct (Hf f (subfeatures_self f)) as [_ Hgroup].
  specialize (Hgroup Hagg).
  unfold get_aggregation_groupby. unfold groupby_feature_of in Hgroup.
  destruct (Entity.getitem _ _) as [variable|e]; [|done]. cbn.
  destruct (same_entries_overridden (new_IdentityFeature variable))
    as [Ho Hv]; [by apply Hgroup|].
  unfold overridden in Ho. unfold override_of in Hv. by rewrite Ho, Hv.
Qed.

Lemma alike_where (f : Feature) :
  alike f -> where_of fd rec f = where_of fd' rec' f.
Proof.
  intros Hf. unfold where_of.
  destruct (has_where f); [|done].
  destruct (where_ f) as [w|] eqn:Hw; [|done].
  destruct (Primitive.value (primitive w)); [|done]. cbn.
  assert (alike w) as Hsw.
  { eapply alike_sub; [|exact Hf]. intros g. by apply subfeatures_where. }
  destruct (same_entries_overridden w) as [Ho Hv].
  { apply (proj1 (proj1 Hsw w (subfeatures_self w))). }
  unfold overridden in Ho. unfold override_of in Hv. rewrite Ho, Hv.
  clear Ho Hv. destruct (_ || _); [done|].
  destruct (base_features w) as [|b rest] eqn:Hb; [done|]. cbn.
  rewrite (rec_same b); [done|].
  eapply alike_sub; [|exact Hsw].
  intros g. apply subfeatures_base. rewrite Hb. left.
Qed.

Lemma alike_inputs (f : Feature) :
  alike f -> input_descriptions_of rec f = input_descriptions_of rec' f.
Proof.
  intros Hf. unfold input_descriptions_of, get_base_feature.
  destruct (isinstance f FeatureOutputSlice).
  - destruct (base_feature f) as [b|] eqn:Hb; [|done]. cbn.
    rewrite (for_each_ext rec rec'); [done|].
    intros c Hc. apply rec_same.
    eapply alike_sub; [|exact Hf].
    intros g Hg. apply (subfeatures_base_feature f b g Hb).
    by apply (subfeatures_base b c).
  - cbn. rewrite (for_each_ext rec rec'); [done|].
    intros c Hc. apply rec_same.
    eapply alike_sub; [|exact Hf].
    intros g. by apply subfeatures_base.
Qed.

Lemma alike_body (f : Feature) :
  alike f ->
  generate_description_body fd pt rec f
  = generate_description_body fd' pt' rec' f.
Proof.
  intros Hf. unfold generate_description_body.
  destruct (same_entries_overridden f) as [Ho Hv].
  { apply (proj1 (proj1 Hf f (subfeatures_self f))). }
  unfold overridden in Ho. unfold override_of in Hv. rewrite Ho, Hv.
  clear Ho Hv. destruct (_ || _); [done|].
  destruct (isinstance f IdentityFeature); [done|].
  destruct (isinstance f DirectFeature).
  { destruct (get_direct_description f) as [[b d]|e] eqn:Hd; [|done]. cbn.
    rewrite (rec_same b); [done|].
    eapply alike_sub; [|exact Hf]. intros g.
    unfold get_direct_description in Hd.
    apply bind_Ok in Hd as (rel & _ & Hd).
    intros Hg.
    by eapply (direct_loop_subfeature (height f) f _ b d g (le_n _) Hd). }
  rewrite (alike_inputs f Hf).
  destruct (input_descriptions_of rec' f) as [[gd ins]|e]; [|done]. cbn.
  rewrite !primitive_description_of_eq.
  rewrite (proj2 Hf f (subfeatures_self f)).
  destruct (Primitive.get_description _ _ _ _) as [s|e]; [|done]. cbn.
  unfold working_feature, get_base_feature.
  assert (forall f', alike f' ->
            (groupby_of fd f' gd ≫= fun groupby =>
             entity_description_of f' ≫= fun entity_description =>
             where_of fd rec f' ≫= fun where_phrase =>
             Ok (VStr (join_template
                         [s; entity_description; where_phrase; groupby])))
            = (groupby_of fd' f' gd ≫= fun groupby =>
               entity_description_of f' ≫= fun entity_description =>
               where_of fd' rec' f' ≫= fun where_phrase =>
               Ok (VStr (join_template
                           [s; entity_description; where_phrase; groupby]))))
    as Hrest.
  { intros f' Hf'. unfold groupby_of.
    rewrite (alike_where f' Hf').
    destruct (isinstance f' AggregationFeature) eqn:Hagg; [|done].
    by rewrite (same_overrides_groupby f' (proj1 Hf') Hagg). }
  destruct (isinstance f FeatureOutputSlice).
  - destruct (base_feature f) as [b|] eqn:Hb; [|done]. cbn.
    apply Hrest. eapply alike_sub; [|exact Hf].
    intros g. by apply subfeatures_base_feature.
  - cbn. by apply Hrest.
Qed.

End same_overrides.

Lemma alike_depth `{FeatureModel}
    (fd fd' : gmap key string) (pt pt' : gmap key template) (depth : nat) :
  forall f, same_overrides fd fd' f -> same_templates pt pt' f ->
    generate_description_depth fd pt depth f
    = generate_description_depth fd' pt' depth f.
Proof.
  induction depth as [|depth IH]; intros f Hf Ht; [done|]. cbn.
  apply alike_body; [|done]. intros g [Hg Hg']. by apply IH.
Qed.

(** X24: the description of a feature depends on the template mapping only
    through the template it selects for the primitive of each feature of
    the tree: two mappings that select the same templates give the same
    outcome, so a template for any other primitive changes nothing. *)
Theorem generate_description_same_templates `{FeatureModel}
    (fd : gmap key string) (pt pt' : gmap key template) (f : Feature) :
  same_templates pt pt' f ->
  generate_description fd pt f = generate_description fd pt' f.
Proof. intros Ht. by apply alike_depth. Qed.

Lemma generate_description_same_templates_witness :
  generate_description ∅ ∅ (Sample.mean_amount None None)
  = generate_description ∅ {[ by_name "cum_sum" := TStr "running total" ]}
      (Sample.mean_amount None None).
Proof.
  apply (generate_description_same_templates ∅ ∅
           {[ by_name "cum_sum" := TStr "running total" ]}
           (Sample.mean_amount None None)).
  intros g Hg. vm_compute in Hg.
  apply list_elem_of_In in Hg.
  destruct Hg as [<- | [<- | []]]; reflexivity.
Defined.
